(** * vcluster connect: a shallow embedding of cmd/vclusterctl/cmd/connect.go

    The Go function [Connect] chains five stages: finding the vcluster pod,
    fetching its kube config ([GetKubeConfig]), looking for a load balancer
    endpoint, rewriting the server address of the kube config, and (when no
    endpoint is used) starting a port forwarding.  Every stage talks to the
    host cluster; those calls are modelled by a record of oracles ([World]),
    and everything [Connect] does to the outside is recorded in a trace of
    events, so that "no service query happened" or "the notice was printed
    once" are statements about the trace. *)

From stdpp Require Import gmap strings list fin_maps pretty.
From Stdlib Require Import ZArith Lia Ascii.

Open Scope string_scope.


(** ** Go errors *)

(** The error values [Connect] builds or receives.  [Wrap] is
    [errors.Wrap] of github.com/pkg/errors, [Errorf] is [fmt.Errorf],
    [ErrWaitTimeout] is the sentinel of k8s.io/apimachinery/pkg/util/wait,
    [StatusNotFound] is an API status error whose reason is NotFound and
    [Other] any other error a collaborator returns.  [Panic] stands for a Go
    run-time panic (nil dereference, index out of range). *)
Inductive error : Type :=
| ErrWaitTimeout
| StatusNotFound (what : string)
| Other (msg : string)
| Errorf (msg : string)
| Wrap (cause : error) (msg : string)
| Panic (msg : string).

(** [err.Error()] *)
Fixpoint Error (e : error) : string :=
  match e with
  | ErrWaitTimeout => "timed out waiting for the condition"
  | StatusNotFound what => what +:+ " not found"
  | Other msg => msg
  | Errorf msg => msg
  | Wrap cause msg => msg +:+ ": " +:+ Error cause
  | Panic msg => "panic: " +:+ msg
  end.

(** [kerrors.IsNotFound] *)
Definition IsNotFound (e : error) : bool :=
  match e with
  | StatusNotFound _ => true
  | _ => false
  end.

Definition error_eqb_head (a b : error) : bool :=
  match a, b with
  | ErrWaitTimeout, ErrWaitTimeout => true
  | StatusNotFound x, StatusNotFound y => bool_decide (x = y)
  | Other x, Other y => bool_decide (x = y)
  | Errorf x, Errorf y => bool_decide (x = y)
  | Panic x, Panic y => bool_decide (x = y)
  | _, _ => false
  end.

(** [wraps e inner]: [inner] is [e] itself or lies on the cause chain of
    [e], the way [errors.Cause] walks it. *)
Fixpoint wraps (e inner : error) : bool :=
  match e with
  | Wrap cause _ => wraps cause inner
  | _ => error_eqb_head e inner
  end.

(** [errors.Cause] *)
Fixpoint Cause (e : error) : error :=
  match e with
  | Wrap cause _ => Cause cause
  | _ => e
  end.

(** A Go result [(T, error)]. *)
Inductive result (A : Type) : Type :=
| Ok (a : A)
| Err (e : error).
Arguments Ok {A} a.
Arguments Err {A} e.

(** ** Strings *)

Module strings.

(** [strings.HasPrefix(s, prefix)] *)
Definition HasPrefix (s prefix : string) : bool := String.prefix prefix s.

(** [strings.Split(s, sep)] for a separator of one byte, which is how
    [Connect] calls it ([":"]). *)
Fixpoint Split (s : string) (sep : ascii) : list string :=
  match s with
  | EmptyString => [EmptyString]
  | String c rest =>
      if Ascii.eqb c sep then EmptyString :: Split rest sep
      else match Split rest sep with
           | [] => [String c EmptyString]
           | seg :: segs => String c seg :: segs
           end
  end.

(** [strings.Join(elems, sep)] *)
Definition Join (elems : list string) (sep : string) : string :=
  String.concat sep elems.

End strings.

Module strconv.
(** [strconv.Itoa] *)
Definition Itoa (i : Z) : string := pretty i.
End strconv.

(** [s] holds no byte [c]. *)
Fixpoint lacks (c : ascii) (s : string) : bool :=
  match s with
  | EmptyString => true
  | String d rest => negb (Ascii.eqb d c) && lacks c rest
  end.

(** ** Kubernetes objects *)

Module corev1.

(** The fields of a pod that [Connect] reads; [CreationTimestamp] is
    [CreationTimestamp.Unix()], [DeletionTimestamp] a nullable pointer. *)
Record Pod : Type := {
  Name : string;
  CreationTimestamp : Z;
  DeletionTimestamp : option Z
}.

Record LoadBalancerIngress : Type := {
  IP : string;
  Hostname : string
}.

(** [Type] is [service.Spec.Type], [Ingress] is
    [service.Status.LoadBalancer.Ingress]. *)
Record Service : Type := {
  Type_ : string;
  Ingress : list LoadBalancerIngress
}.

Definition ServiceTypeLoadBalancer : string := "LoadBalancer".

End corev1.

Module api.

Record Cluster : Type := {
  Server : string;
  CertificateAuthorityData : string
}.

Record AuthInfo : Type := {
  ClientCertificateData : string;
  ClientKeyData : string
}.

(** [api.Context] *)
Record Ctx : Type := {
  Cluster_ : string;
  AuthInfo_ : string
}.

Record Config : Type := {
  Clusters : gmap string Cluster;
  AuthInfos : gmap string AuthInfo;
  Contexts : gmap string Ctx;
  CurrentContext : string
}.

Definition setClusters (c : Config) (m : gmap string Cluster) : Config :=
  {| Clusters := m; AuthInfos := AuthInfos c; Contexts := Contexts c;
     CurrentContext := CurrentContext c |}.

Definition setServer (c : Cluster) (s : string) : Cluster :=
  {| Server := s; CertificateAuthorityData := CertificateAuthorityData c |}.

End api.

(** ** The command *)

(** [ConnectCmd]; [Namespace] comes from the embedded [GlobalFlags]. *)
Record ConnectCmd : Type := {
  Namespace : string;
  KubeConfig : string;
  PodName : string;
  UpdateCurrent : bool;
  Print : bool;
  LocalPort : Z;
  Address : string;
  Server : string
}.

Definition setNamespace (c : ConnectCmd) (ns : string) : ConnectCmd :=
  {| Namespace := ns; KubeConfig := KubeConfig c; PodName := PodName c;
     UpdateCurrent := UpdateCurrent c; Print := Print c;
     LocalPort := LocalPort c; Address := Address c; Server := Server c |}.

Definition setServer (c : ConnectCmd) (srv : string) : ConnectCmd :=
  {| Namespace := Namespace c; KubeConfig := KubeConfig c; PodName := PodName c;
     UpdateCurrent := UpdateCurrent c; Print := Print c;
     LocalPort := LocalPort c; Address := Address c; Server := srv |}.

(** ** Events, the world and the monad *)

Inductive Level : Type := LInfo | LDone.

(** What [Connect] does to its collaborators, in the order it does it. *)
Inductive Event : Type :=
| EvListPods (namespace selector : string)
| EvReadKubeConfig (name namespace : string)
| EvExec (namespace pod container : string) (command : list string)
| EvGetService (namespace name : string)
| EvLog (lvl : Level) (msg : string)
| EvStdout (out : string)
| EvWriteFile (path out : string)
| EvModifyConfig (config : api.Config)
| EvPortForward (address pod namespace localPort remotePort : string).

Definition isListPods (e : Event) : bool :=
  match e with EvListPods _ _ => true | _ => false end.
Definition isReadKubeConfig (e : Event) : bool :=
  match e with EvReadKubeConfig _ _ => true | _ => false end.
Definition isExec (e : Event) : bool :=
  match e with EvExec _ _ _ _ => true | _ => false end.
Definition isGetService (e : Event) : bool :=
  match e with EvGetService _ _ => true | _ => false end.
Definition isPortForward (e : Event) : bool :=
  match e with EvPortForward _ _ _ _ _ => true | _ => false end.
Definition isLog (msg : string) (e : Event) : bool :=
  match e with EvLog _ m => bool_decide (m = msg) | _ => false end.

(** Number of events of a kind. *)
Definition count (p : Event -> bool) (tr : list Event) : nat :=
  length (List.filter p tr).
Arguments count : simpl never.

(** The answers of the collaborators.  A capability that is asked
    repeatedly answers by the number of earlier calls to it, so that a
    secret can appear or an ingress can be assigned while [Connect] polls.
    [ReadKubeConfig] (pkg/util/kubeconfig), [ExecBuffered] (pkg/util/podhelper)
    and [StartPortForwardingWithRestart] (pkg/util/portforward) reach into
    the cluster and are oracles as well.  [ticks interval timeout] is the
    number of timer ticks [wait.PollImmediate] receives before its deadline,
    in seconds. *)
Record World : Type := {
  ClientConfig : result unit;
  NewForConfig : result unit;
  LoaderNamespace : string * option error;
  ListPods : nat -> string -> string -> result (list corev1.Pod);
  ReadKubeConfig : nat -> string -> string -> result api.Config;
  ExecBuffered : nat -> string -> string -> string -> list string -> result string;
  Load : string -> result api.Config;
  GetService : nat -> string -> string -> result corev1.Service;
  Write : api.Config -> result string;
  RawConfig : result api.Config;
  ModifyConfig : api.Config -> option error;
  StdoutWrite : string -> option error;
  WriteFile : string -> string -> option error;
  StartPortForwardingWithRestart :
    string -> string -> string -> string -> string -> option error;
  ticks : Z -> Z -> nat
}.

(** The mutable part of a run: the command (its [Namespace] and [Server]
    fields are assigned by [Connect]) and the trace so far. *)
Record St : Type := {
  cmd : ConnectCmd;
  trace : list Event
}.

Definition M (A : Type) : Type := St -> result A * St.

Definition ret {A} (a : A) : M A := fun s => (Ok a, s).
Definition fail {A} (e : error) : M A := fun s => (Err e, s).
Definition bind {A B} (m : M A) (k : A -> M B) : M B :=
  fun s => match m s with
           | (Ok a, s') => k a s'
           | (Err e, s') => (Err e, s')
           end.

Notation "x <- m ;; k" := (bind m (fun x => k))
  (at level 90, m at next level, right associativity).
Notation "m ;;; k" := (bind m (fun _ => k))
  (at level 90, right associativity).

Definition getCmd : M ConnectCmd := fun s => (Ok (cmd s), s).
Definition putCmd (c : ConnectCmd) : M unit :=
  fun s => (Ok tt, {| cmd := c; trace := trace s |}).
Definition emit (e : Event) : M unit :=
  fun s => (Ok tt, {| cmd := cmd s; trace := trace s ++ [e] |}).

(** A call that can fail: the event is recorded, then the answer returned. *)
Definition call {A} (e : Event) (answer : list Event -> result A) : M A :=
  fun s => (answer (trace s), {| cmd := cmd s; trace := trace s ++ [e] |}).

(** [if err != nil { return err }] for a plain [error] result. *)
Definition check (r : option error) : M unit :=
  match r with
  | Some e => fail e
  | None => ret tt
  end.

(** [errors.Wrap(err, msg)] on the failure of [m]. *)
Definition wrapErr {A} (m : M A) (msg : string) : M A :=
  fun s => match m s with
           | (Err e, s') => (Err (Wrap e msg), s')
           | r => r
           end.

(** [wait.PollImmediate]: the condition is checked at once and then on
    every tick; an error of the condition ends the poll with that error, and
    when the ticks are used up the poll ends with [ErrWaitTimeout].  [l] is
    what the closure captures and assigns. *)
Fixpoint poll {L} (n : nat) (condition : L -> M (bool * L)) (l : L) : M L :=
  r <- condition l ;;
  if r.1 then ret r.2
  else match n with
       | O => fail ErrWaitTimeout
       | S n' => poll n' condition r.2
       end.

(** The deadline of a poll elapses: every check, the immediate one and one
    per tick, says "not done" without an error. *)
Fixpoint exhausted {L} (n : nat) (condition : L -> M (bool * L)) (l : L)
    (s : St) : bool :=
  match condition l s with
  | (Ok (false, l'), s') =>
      match n with
      | O => true
      | S n' => exhausted n' condition l' s'
      end
  | _ => false
  end.

(** [sort.Slice]: Go sorts short slices by insertion; the order among
    elements that [less] does not separate is not promised by Go, and
    nothing below depends on it. *)
Module sort.
Section Slice.
Context {A : Type} (less : A -> A -> bool).

Fixpoint insert (x : A) (l : list A) : list A :=
  match l with
  | [] => [x]
  | y :: l' => if less x y then x :: y :: l' else y :: insert x l'
  end.

Definition Slice (l : list A) : list A :=
  fold_left (fun acc x => insert x acc) l [].
End Slice.
End sort.

(** ** connect.go *)

Definition liftR {A} (r : result A) : M A :=
  match r with
  | Ok a => ret a
  | Err e => fail e
  end.

(** Runs [m] and hands its result, error or not, to the caller. *)
Definition try {A} (m : M A) : M (result A) :=
  fun s => match m s with (r, s') => (Ok r, s') end.

Definition when (b : bool) (m : M unit) : M unit :=
  if b then m else ret tt.

Definition msgWaiting : string := "Waiting for vcluster to come up...".
Definition msgFallback : string :=
  "Falling back to reading the kube config from the syncer pod.".
Definition msgWaitingLB : string := "Waiting for vcluster LoadBalancer ip...".

(** The command [GetKubeConfig] runs in the syncer container. *)
Definition catKubeConfig : list string := ["cat"; "/root/.kube/config"].

(** The [less] of line 137: [a] was created after [b]. *)
Definition newer (a b : corev1.Pod) : bool :=
  (corev1.CreationTimestamp a >? corev1.CreationTimestamp b)%Z.

Section Connect.

Variable w : World.

(** The condition of the first poll of [Connect] (lines 124-145);
    the closure assigns [podName]. *)
Definition findPodCondition (vclusterName : string) (podName : string)
    : M (bool * string) :=
  c <- getCmd ;;
  let selector := "app=vcluster,release=" +:+ vclusterName in
  pods <- call (EvListPods (Namespace c) selector)
            (fun tr => ListPods w (count isListPods tr) (Namespace c) selector) ;;
  if (length pods =? 0)%nat then ret (false, podName)
  else
    let items := sort.Slice newer pods in
    match items !! 0%nat with
    | None => fail (Panic "index out of range")
    | Some top =>
        match corev1.DeletionTimestamp top with
        | Some _ => ret (false, podName)
        | None => ret (true, corev1.Name top)
        end
    end.

(** Lines 122-149. *)
Definition findPod (vclusterName : string) : M string :=
  c <- getCmd ;;
  let podName := PodName c in
  if String.eqb podName "" then
    wrapErr (poll (ticks w 1 10) (findPodCondition vclusterName) podName)
      "finding vcluster pod"
  else ret podName.

(** The condition of the poll of [GetKubeConfig] (lines 310-332); the
    closure assigns [kubeConfig] (a pointer, [None] for nil) and
    [printedWaiting]. *)
Definition getKubeConfigCondition (vclusterName podName namespace : string)
    (l : option api.Config * bool) : M (bool * (option api.Config * bool)) :=
  let printedWaiting := l.2 in
  r <- try (call (EvReadKubeConfig vclusterName namespace)
         (fun tr => ReadKubeConfig w (count isReadKubeConfig tr) vclusterName namespace)) ;;
  match r with
  | Err _ =>
      r' <- try (call (EvExec namespace podName "syncer" catKubeConfig)
              (fun tr => ExecBuffered w (count isExec tr) namespace podName
                           "syncer" catKubeConfig)) ;;
      match r' with
      | Err _ =>
          when (negb printedWaiting) (emit (EvLog LInfo msgWaiting)) ;;;
          ret (false, (None, true))
      | Ok stdout =>
          match Load w stdout with
          | Err e => fail (Errorf ("failed to parse kube config: " +:+ Error e))
          | Ok kubeConfig =>
              emit (EvLog LInfo msgFallback) ;;;
              ret (true, (Some kubeConfig, printedWaiting))
          end
      end
  | Ok kubeConfig => ret (true, (Some kubeConfig, printedWaiting))
  end.

(** [GetKubeConfig] (lines 306-338). *)
Definition GetKubeConfig (vclusterName podName namespace : string)
    : M (option api.Config) :=
  l <- wrapErr (poll (ticks w 2 600)
         (getKubeConfigCondition vclusterName podName namespace) (None, false))
         "wait for vcluster" ;;
  ret l.1.

(** The condition of the poll for the load balancer (lines 165-201); the
    closure assigns [printedWaiting] and [cmd.Server]. *)
Definition exposedCondition (vclusterName : string) (printedWaiting : bool)
    : M (bool * bool) :=
  c <- getCmd ;;
  r <- try (call (EvGetService (Namespace c) vclusterName)
         (fun tr => GetService w (count isGetService tr) (Namespace c) vclusterName)) ;;
  match r with
  | Err e => if IsNotFound e then ret (true, printedWaiting) else fail e
  | Ok service =>
      if negb (String.eqb (corev1.Type_ service) corev1.ServiceTypeLoadBalancer)
      then ret (true, printedWaiting)
      else
        match corev1.Ingress service with
        | [] =>
            when (negb printedWaiting) (emit (EvLog LInfo msgWaitingLB)) ;;;
            ret (false, true)
        | ingress :: _ =>
            (if negb (String.eqb (corev1.Hostname ingress) "")
             then putCmd (setServer c (corev1.Hostname ingress))
             else when (negb (String.eqb (corev1.IP ingress) ""))
                    (putCmd (setServer c (corev1.IP ingress)))) ;;;
            c' <- getCmd ;;
            if String.eqb (Server c') "" then ret (false, printedWaiting)
            else
              emit (EvLog LInfo ("Using vcluster " +:+ vclusterName +:+
                      " load balancer endpoint: " +:+ Server c')) ;;;
              ret (true, printedWaiting)
        end
  end.

(** Lines 162-205. *)
Definition checkExposed (vclusterName : string) : M unit :=
  c <- getCmd ;;
  if negb (String.eqb vclusterName "") && String.eqb (Server c) "" then
    wrapErr (poll (ticks w 2 300) (exposedCondition vclusterName) false)
      "wait for vcluster" ;;;
    ret tt
  else ret tt.

(** The body of the loop of lines 208-225, once per key of
    [kubeConfig.Clusters]. *)
Fixpoint rewriteServers (keys : list string) (kubeConfig : api.Config)
    (port : string) : M (api.Config * string) :=
  match keys with
  | [] => ret (kubeConfig, port)
  | k :: keys' =>
      c <- getCmd ;;
      if negb (String.eqb (Server c) "") then
        when (negb (strings.HasPrefix (Server c) "https://"))
          (putCmd (setServer c ("https://" +:+ Server c))) ;;;
        c' <- getCmd ;;
        rewriteServers keys'
          (api.setClusters kubeConfig
             (alter (fun cl => api.setServer cl (Server c')) k
                (api.Clusters kubeConfig)))
          port
      else
        match api.Clusters kubeConfig !! k with
        | None => fail (Panic "nil pointer dereference")
        | Some cl =>
            let splitted := strings.Split (api.Server cl) ":" in
            if negb (length splitted =? 3)%nat then
              fail (Errorf ("unexpected server in kubeconfig: " +:+ api.Server cl))
            else
              let port' := splitted !!! 2%nat in
              let splitted' := <[2%nat := strconv.Itoa (LocalPort c)]> splitted in
              rewriteServers keys'
                (api.setClusters kubeConfig
                   (<[k := api.setServer cl (strings.Join splitted' ":")]>
                      (api.Clusters kubeConfig)))
                port'
        end
  end.

(** Lines 207-225.  Go ranges over a map in no promised order;
    [map_to_list] fixes one, and [Connect] ranges over a map of one key. *)
Definition rewriteServer (kubeConfig : api.Config) : M (api.Config * string) :=
  rewriteServers (map_to_list (api.Clusters kubeConfig)).*1 kubeConfig "".

(** [updateKubeConfig] (lines 277-298).  A nil pointer stored under a key
    is the key being absent. *)
Definition updateKubeConfig (contextName : string)
    (cluster : option api.Cluster) (authInfo : option api.AuthInfo)
    (setActive : bool) : M unit :=
  config <- liftR (RawConfig w) ;;
  let clusters := match cluster with
                  | Some cl => <[contextName := cl]> (api.Clusters config)
                  | None => delete contextName (api.Clusters config)
                  end in
  let authInfos := match authInfo with
                   | Some a => <[contextName := a]> (api.AuthInfos config)
                   | None => delete contextName (api.AuthInfos config)
                   end in
  let context := {| api.Cluster_ := contextName; api.AuthInfo_ := contextName |} in
  let config' :=
    {| api.Clusters := clusters; api.AuthInfos := authInfos;
       api.Contexts := <[contextName := context]> (api.Contexts config);
       api.CurrentContext :=
         if setActive then contextName else api.CurrentContext config |} in
  emit (EvModifyConfig config') ;;;
  check (ModifyConfig w config').

(** Lines 227-268: the kube config is written out. *)
Definition writeKubeConfig (vclusterName : string) (kubeConfig : api.Config)
    : M unit :=
  out <- liftR (Write w kubeConfig) ;;
  c <- getCmd ;;
  if UpdateCurrent c then
    let clusterConfig := last (map_to_list (api.Clusters kubeConfig)).*2 in
    let authConfig := last (map_to_list (api.AuthInfos kubeConfig)).*2 in
    let contextName :=
      if negb (String.eqb vclusterName "")
      then "vcluster_" +:+ Namespace c +:+ "_" +:+ vclusterName
      else "vcluster_" +:+ Namespace c +:+ "_" +:+ PodName c in
    updateKubeConfig contextName clusterConfig authConfig false ;;;
    emit (EvLog LDone
      ("Successfully created kube context " +:+ contextName +:+
       ". You can access the vcluster with `kubectl get namespaces --context "
       +:+ contextName +:+ "`"))
  else if Print c then
    emit (EvStdout out) ;;;
    check (StdoutWrite w out)
  else
    emit (EvWriteFile (KubeConfig c) out) ;;;
    wrapErr (check (WriteFile w (KubeConfig c) out)) "write kube config" ;;;
    emit (EvLog LDone
      ("Virtual cluster kube config written to: " +:+ KubeConfig c +:+
       ". You can access the cluster via `kubectl --kubeconfig " +:+
       KubeConfig c +:+ " get namespaces`")).

(** Lines 270-274. *)
Definition forward (podName port : string) : M unit :=
  c <- getCmd ;;
  if negb (String.eqb (Server c) "") then ret tt
  else
    let localPort := strconv.Itoa (LocalPort c) in
    emit (EvPortForward (Address c) podName (Namespace c) localPort port) ;;;
    check (StartPortForwardingWithRestart w (Address c) podName (Namespace c)
             localPort port).

(** Lines 207-274: what [Connect] does once it knows how the vcluster
    is reached. *)
Definition Connect_rewrite (vclusterName podName : string)
    (kubeConfig : api.Config) : M unit :=
  r <- rewriteServer kubeConfig ;;
  writeKubeConfig vclusterName r.1 ;;;
  forward podName r.2.

(** Lines 157-274: what [Connect] does with the fetched kube config. *)
Definition Connect_fetched (vclusterName podName : string)
    (kubeConfig : api.Config) : M unit :=
  if negb (size (api.Clusters kubeConfig) =? 1)%nat then
    fail (Errorf "unexpected kube config")
  else
    checkExposed vclusterName ;;;
    Connect_rewrite vclusterName podName kubeConfig.

(** Lines 98-120. *)
Definition Connect_setup (vclusterName : string) : M unit :=
  wrapErr (liftR (ClientConfig w)) "load kube config" ;;;
  wrapErr (liftR (NewForConfig w)) "create kube client" ;;;
  c <- getCmd ;;
  when (String.eqb (Namespace c) "")
    (putCmd (setNamespace c (LoaderNamespace w).1) ;;;
     check (LoaderNamespace w).2) ;;;
  c' <- getCmd ;;
  if String.eqb vclusterName "" && String.eqb (PodName c') "" then
    fail (Errorf "please specify either --pod or a name for the vcluster")
  else ret tt.

(** Lines 98-155: up to the fetched kube config. *)
Definition Connect_fetch (vclusterName : string) : M (string * api.Config) :=
  Connect_setup vclusterName ;;;
  podName <- findPod vclusterName ;;
  c <- getCmd ;;
  p <- wrapErr (GetKubeConfig vclusterName podName (Namespace c))
         "failed to parse kube config" ;;
  match p with
  | None => fail (Panic "nil pointer dereference")
  | Some kubeConfig => ret (podName, kubeConfig)
  end.

(** [Connect] (lines 97-275). *)
Definition Connect (vclusterName : string) : M unit :=
  f <- Connect_fetch vclusterName ;;
  Connect_fetched vclusterName f.1 f.2.

End Connect.

(** [Run] (lines 88-95): the name of the vcluster is the first argument,
    if there is one. *)
Definition Run (w : World) (args : list string) : M unit :=
  let vclusterName := if (0 <? length args)%nat then args !!! 0%nat else "" in
  Connect w vclusterName.

(** * The vocabulary of the statements *)

Open Scope list_scope.

(** [emits P m]: running [m] only appends events, all of them in [P]. *)
Definition emits {A} (P : Event -> bool) (m : M A) : Prop :=
  forall s, exists evs, trace (m s).2 = trace s ++ evs /\ forallb P evs = true.

(** [keeps m]: running [m] leaves the command as it is. *)
Definition keeps {A} (m : M A) : Prop :=
  forall s, cmd (m s).2 = cmd s.

Definition errNoTarget : error :=
  Errorf "please specify either --pod or a name for the vcluster".

Definition errUnexpectedKubeConfig : error := Errorf "unexpected kube config".

(** The answer of the service read for which no endpoint is to be
    expected: the service is not found, or it is not of type LoadBalancer. *)
Definition noEndpointExpected (answer : result corev1.Service) : bool :=
  match answer with
  | Err e => IsNotFound e
  | Ok service =>
      negb (String.eqb (corev1.Type_ service) corev1.ServiceTypeLoadBalancer)
  end.

(** No element of [l] was created after its first one. *)
Definition newestFirst (l : list corev1.Pod) : Prop :=
  match l with
  | [] => True
  | top :: _ =>
      Forall (fun q => (corev1.CreationTimestamp q <= corev1.CreationTimestamp top)%Z) l
  end.

Definition failed {A} (r : result A) : bool :=
  match r with
  | Err _ => true
  | Ok _ => false
  end.

Inductive Stage : Type := Resolution | Fetching | Discovery.

(** What [Connect] returns when the poll of a stage runs out of time. *)
Definition stageError (stage : Stage) : error :=
  match stage with
  | Resolution => Wrap ErrWaitTimeout "finding vcluster pod"
  | Fetching =>
      Wrap (Wrap ErrWaitTimeout "wait for vcluster") "failed to parse kube config"
  | Discovery => Wrap ErrWaitTimeout "wait for vcluster"
  end.

(** [Connect] reaches the poll of [stage] and the deadline of that poll
    elapses. *)
Definition timesOut (w : World) (vclusterName : string) (stage : Stage) (s : St)
    : bool :=
  match stage with
  | Resolution =>
      match Connect_setup w vclusterName s with
      | (Ok _, s0) =>
          String.eqb (PodName (cmd s0)) "" &&
          exhausted (ticks w 1 10) (findPodCondition w vclusterName)
            (PodName (cmd s0)) s0
      | _ => false
      end
  | Fetching =>
      match (Connect_setup w vclusterName ;;; findPod w vclusterName) s with
      | (Ok podName, s1) =>
          exhausted (ticks w 2 600)
            (getKubeConfigCondition w vclusterName podName (Namespace (cmd s1)))
            (None, false) s1
      | _ => false
      end
  | Discovery =>
      match Connect_fetch w vclusterName s with
      | (Ok (podName, kubeConfig), s2) =>
          (size (api.Clusters kubeConfig) =? 1)%nat &&
          negb (String.eqb vclusterName "") &&
          String.eqb (Server (cmd s2)) "" &&
          exhausted (ticks w 2 300) (exposedCondition w vclusterName) false s2
      | _ => false
      end
  end.

(** Neither an output nor an output that parses: the command in the pod
    gives no kube config. *)
Definition noDocument (w : World) (r : result string) : bool :=
  match r with
  | Err _ => true
  | Ok stdout => failed (Load w stdout)
  end.

(** The answer to the [i]-th read of the secret after the state [s], and
    to the [i]-th run of the command in the pod after [s]. *)
Definition readAt (w : World) (vclusterName namespace : string) (s : St)
    (i : nat) : result api.Config :=
  ReadKubeConfig w (count isReadKubeConfig (trace s) + i) vclusterName namespace.

Definition execAt (w : World) (podName namespace : string) (s : St)
    (i : nat) : result string :=
  ExecBuffered w (count isExec (trace s) + i) namespace podName "syncer"
    catKubeConfig.

(** Number of bytes [c] in [s]. *)
Fixpoint countChar (c : ascii) (s : string) : nat :=
  match s with
  | EmptyString => 0
  | String d rest => (if Ascii.eqb d c then 1 else 0) + countChar c rest
  end.

(** The events by which the kube config leaves [Connect]: the ambient kube
    config is modified, or standard output or a file is written. *)
Definition isSink (e : Event) : bool :=
  match e with
  | EvModifyConfig _ | EvStdout _ | EvWriteFile _ _ => true
  | _ => false
  end.

Definition isModifyConfig (e : Event) : bool :=
  match e with EvModifyConfig _ => true | _ => false end.
Definition isStdout (e : Event) : bool :=
  match e with EvStdout _ => true | _ => false end.
Definition isWriteFile (e : Event) : bool :=
  match e with EvWriteFile _ _ => true | _ => false end.

(** A message of level done. *)
Definition isDone (e : Event) : bool :=
  match e with EvLog LDone _ => true | _ => false end.

(** The address an ingress entry gives: its hostname, or else its IP. *)
Definition endpointOf (ingress : corev1.LoadBalancerIngress) : string :=
  if String.eqb (corev1.Hostname ingress) "" then corev1.IP ingress
  else corev1.Hostname ingress.

(** A load balancer that has no address yet: no ingress entry, or a first
    entry with neither hostname nor IP. *)
Definition notReady (answer : result corev1.Service) : bool :=
  match answer with
  | Ok service =>
      String.eqb (corev1.Type_ service) corev1.ServiceTypeLoadBalancer &&
      match corev1.Ingress service with
      | [] => true
      | ingress :: _ => String.eqb (endpointOf ingress) ""
      end
  | Err _ => false
  end.

(** A load balancer whose first ingress entry gives the address [server]. *)
Definition readyAt (server : string) (answer : result corev1.Service) : bool :=
  match answer with
  | Ok service =>
      String.eqb (corev1.Type_ service) corev1.ServiceTypeLoadBalancer &&
      match corev1.Ingress service with
      | [] => false
      | ingress :: _ =>
          String.eqb (endpointOf ingress) server && negb (String.eqb server "")
      end
  | Err _ => false
  end.

(** The answer to the [i]-th read of the service after the state [s]. *)
Definition serviceAt (w : World) (vclusterName : string) (s : St) (i : nat)
    : result corev1.Service :=
  GetService w (count isGetService (trace s) + i) (Namespace (cmd s)) vclusterName.

(** The answer to the [i]-th listing of the pods after the state [s]. *)
Definition podsAt (w : World) (vclusterName : string) (s : St) (i : nat)
    : result (list corev1.Pod) :=
  ListPods w (count isListPods (trace s) + i) (Namespace (cmd s))
    ("app=vcluster,release=" +:+ vclusterName).

(** [https://] in front of the address unless it is there. *)
Definition withScheme (server : string) : string :=
  if strings.HasPrefix server "https://" then server else "https://" +:+ server.

(** No panic on the cause chain of an error. *)
Fixpoint noPanic (e : error) : bool :=
  match e with
  | Panic _ => false
  | Wrap cause _ => noPanic cause
  | _ => true
  end.

Definition quiet {A} (r : result A) : bool :=
  match r with
  | Err e => noPanic e
  | Ok _ => true
  end.

Definition quietOpt (r : option error) : bool :=
  match r with
  | Some e => noPanic e
  | None => true
  end.

(** The collaborators return errors, never a panic of their own. *)
Record calm (w : World) : Prop := {
  calm_ClientConfig : quiet (ClientConfig w) = true;
  calm_NewForConfig : quiet (NewForConfig w) = true;
  calm_LoaderNamespace : quietOpt (LoaderNamespace w).2 = true;
  calm_ListPods : forall i ns sel, quiet (ListPods w i ns sel) = true;
  calm_GetService : forall i ns name, quiet (GetService w i ns name) = true;
  calm_Write : forall c, quiet (Write w c) = true;
  calm_RawConfig : quiet (RawConfig w) = true;
  calm_ModifyConfig : forall c, quietOpt (ModifyConfig w c) = true;
  calm_StdoutWrite : forall out, quietOpt (StdoutWrite w out) = true;
  calm_WriteFile : forall path out, quietOpt (WriteFile w path out) = true;
  calm_StartPortForwarding : forall a p ns lp rp,
    quietOpt (StartPortForwardingWithRestart w a p ns lp rp) = true
}.

(** The message of success after the file was written (line 267). *)
Definition msgWritten (path : string) : string :=
  "Virtual cluster kube config written to: " +:+ path +:+
  ". You can access the cluster via `kubectl --kubeconfig " +:+
  path +:+ " get namespaces`".

(** [adds P n m]: running [m] only appends events, at most [n] of them
    in [P]. *)
Definition adds {A} (P : Event -> bool) (n : nat) (m : M A) : Prop :=
  forall s, exists evs, trace (m s).2 = trace s ++ evs /\ (count P evs <= n)%nat.

(** [raises Q m]: every error of [m] is in [Q]. *)
Definition raises {A} (Q : error -> bool) (m : M A) : Prop :=
  forall s e, (m s).1 = Err e -> Q e = true.

(** The events of a run that uses the pod [pod] and no other: no pods are
    listed, and commands and port forwardings go to [pod]. *)
Definition onlyPod (pod : string) (e : Event) : bool :=
  match e with
  | EvListPods _ _ => false
  | EvExec _ p _ _ => String.eqb p pod
  | EvPortForward _ p _ _ _ => String.eqb p pod
  | _ => true
  end.

(** * Example runs *)

Module Demo.

(** [vcluster connect demo] with the defaults of the flags. *)
Definition flags : ConnectCmd :=
  {| Namespace := "default"; KubeConfig := "./kubeconfig.yaml"; PodName := "";
     UpdateCurrent := false; Print := false; LocalPort := 8443;
     Address := ""; Server := "" |}.

Definition withPod (c : ConnectCmd) (pod : string) : ConnectCmd :=
  {| Namespace := Namespace c; KubeConfig := KubeConfig c; PodName := pod;
     UpdateCurrent := UpdateCurrent c; Print := Print c;
     LocalPort := LocalPort c; Address := Address c; Server := Server c |}.

Definition start (c : ConnectCmd) : St := {| cmd := c; trace := [] |}.

Definition oldPod : corev1.Pod :=
  {| corev1.Name := "demo-0"; corev1.CreationTimestamp := 100;
     corev1.DeletionTimestamp := None |}.

Definition newPod : corev1.Pod :=
  {| corev1.Name := "demo-1"; corev1.CreationTimestamp := 200;
     corev1.DeletionTimestamp := Some 260%Z |}.

Definition cluster : api.Cluster :=
  {| api.Server := "https://10.0.0.5:6443"; api.CertificateAuthorityData := "ca" |}.

Definition config : api.Config :=
  {| api.Clusters := {[ "demo" := cluster ]}; api.AuthInfos := ∅;
     api.Contexts := ∅; api.CurrentContext := "" |}.

Definition twoClusters : api.Config :=
  {| api.Clusters := {[ "demo" := cluster; "other" := cluster ]};
     api.AuthInfos := ∅; api.Contexts := ∅; api.CurrentContext := "" |}.

(** A host cluster given by its answers; every write succeeds and every
    poll gets [n] ticks. *)
Definition world (pods : nat -> result (list corev1.Pod))
    (secret : nat -> result api.Config) (exec : nat -> result string)
    (load : string -> result api.Config)
    (service : nat -> result corev1.Service) (n : nat) : World :=
  {| ClientConfig := Ok tt;
     NewForConfig := Ok tt;
     LoaderNamespace := ("default", None);
     ListPods := fun i _ _ => pods i;
     ReadKubeConfig := fun i _ _ => secret i;
     ExecBuffered := fun i _ _ _ _ => exec i;
     Load := load;
     GetService := fun i _ _ => service i;
     Write := fun _ => Ok "kubeconfig";
     RawConfig := Err (Other "no kube config");
     ModifyConfig := fun _ => None;
     StdoutWrite := fun _ => None;
     WriteFile := fun _ _ => None;
     StartPortForwardingWithRestart := fun _ _ _ _ _ => None;
     ticks := fun _ _ => n |}.

Definition noSecret : nat -> result api.Config :=
  fun _ => Err (StatusNotFound "secrets vc-demo").
Definition noExec : nat -> result string :=
  fun _ => Err (Other "container not found (syncer)").
Definition noService : nat -> result corev1.Service :=
  fun _ => Err (StatusNotFound "services demo").
Definition onePod : nat -> result (list corev1.Pod) := fun _ => Ok [oldPod].

(** The secret holds the kube config and no service exposes the vcluster. *)
Definition plain : World :=
  world onePod (fun _ => Ok config) noExec (fun _ => Ok config) noService 5.

(** The secret holds a kube config of two clusters. *)
Definition malformed : World :=
  world onePod (fun _ => Ok twoClusters) noExec (fun _ => Ok config) noService 5.

(** An old vcluster: no secret, and the syncer answers from the third
    attempt on. *)
Definition legacy : World :=
  world onePod noSecret
    (fun i => if (i <? 2)%nat then Err (Other "container not found (syncer)")
              else Ok "apiVersion: v1")
    (fun _ => Ok config) noService 5.

(** No secret, and what the syncer prints is no kube config. *)
Definition garbled : World :=
  world onePod noSecret (fun _ => Ok "<html>")
    (fun _ => Err (Other "yaml: did not find expected node content"))
    noService 5.

(** No secret and no syncer to run the command in, for the whole deadline. *)
Definition stuck : World :=
  world onePod noSecret noExec (fun _ => Ok config) noService 2.

(** The newest pod is being deleted. *)
Definition terminating : World :=
  world (fun _ => Ok [oldPod; newPod]) (fun _ => Ok config) noExec
    (fun _ => Ok config) noService 3.

(** The listing of the pods is refused. *)
Definition forbidden : World :=
  world (fun _ => Err (Other "pods is forbidden")) (fun _ => Ok config) noExec
    (fun _ => Ok config) noService 5.

(** The secret is there from the third read on. *)
Definition slowSecret : World :=
  world onePod
    (fun i => if (i <? 2)%nat then Err (StatusNotFound "secrets vc-demo")
              else Ok config)
    noExec (fun _ => Ok config) noService 5.

(** The read of the service is refused. *)
Definition unreadable : World :=
  world onePod (fun _ => Ok config) noExec (fun _ => Ok config)
    (fun _ => Err (Other "services is forbidden")) 5.

Definition pending : corev1.Service :=
  {| corev1.Type_ := "LoadBalancer"; corev1.Ingress := [] |}.

Definition assigned : corev1.Service :=
  {| corev1.Type_ := "LoadBalancer";
     corev1.Ingress := [ {| corev1.IP := "34.1.1.1"; corev1.Hostname := "" |} ] |}.

(** A load balancer that gets its IP with the fourth read. *)
Definition balanced : World :=
  world onePod (fun _ => Ok config) noExec (fun _ => Ok config)
    (fun i => if (i <? 3)%nat then Ok pending else Ok assigned) 5.

(** A kube config whose server has no port. *)
Definition noPort : api.Cluster :=
  {| api.Server := "https://example.com"; api.CertificateAuthorityData := "ca" |}.

Definition noPortConfig : api.Config :=
  {| api.Clusters := {[ "demo" := noPort ]}; api.AuthInfos := ∅;
     api.Contexts := ∅; api.CurrentContext := "" |}.

Definition admin : api.AuthInfo :=
  {| api.ClientCertificateData := "cert"; api.ClientKeyData := "key" |}.

(** The kube config of the vcluster, with its user. *)
Definition userConfig : api.Config :=
  {| api.Clusters := {[ "demo" := cluster ]};
     api.AuthInfos := {[ "admin" := admin ]};
     api.Contexts := ∅; api.CurrentContext := "" |}.

(** The kube config of the operator, who works in the context [prod]. *)
Definition ambientConfig : api.Config :=
  {| api.Clusters := ∅; api.AuthInfos := ∅; api.Contexts := ∅;
     api.CurrentContext := "prod" |}.

(** [Demo.plain] with an ambient kube config that can be loaded. *)
Definition ambient : World :=
  {| ClientConfig := Ok tt;
     NewForConfig := Ok tt;
     LoaderNamespace := ("default", None);
     ListPods := fun i _ _ => onePod i;
     ReadKubeConfig := fun _ _ _ => Ok userConfig;
     ExecBuffered := fun i _ _ _ _ => noExec i;
     Load := fun _ => Ok userConfig;
     GetService := fun i _ _ => noService i;
     Write := fun _ => Ok "kubeconfig";
     RawConfig := Ok ambientConfig;
     ModifyConfig := fun _ => None;
     StdoutWrite := fun _ => None;
     WriteFile := fun _ _ => None;
     StartPortForwardingWithRestart := fun _ _ _ _ _ => None;
     ticks := fun _ _ => 5%nat |}.

Definition updating : ConnectCmd :=
  {| Namespace := "default"; KubeConfig := "./kubeconfig.yaml"; PodName := "";
     UpdateCurrent := true; Print := false; LocalPort := 8443;
     Address := ""; Server := "" |}.

End Demo.

(** * Properties *)

(** ** Counting events *)

Lemma count_app p tr evs : count p (tr ++ evs) = (count p tr + count p evs)%nat.
Proof. unfold count. by rewrite List.filter_app, length_app. Qed.

(** ** What a computation adds to the trace *)

Section Emits.

Context (P : Event -> bool).

Lemma emits_ret {A} (a : A) : emits P (ret a).
Proof. intros s. exists []. by rewrite app_nil_r. Qed.

Lemma emits_fail {A} e : emits P (@fail A e).
Proof. intros s. exists []. by rewrite app_nil_r. Qed.

Lemma emits_getCmd : emits P getCmd.
Proof. intros s. exists []. by rewrite app_nil_r. Qed.

Lemma emits_putCmd c : emits P (putCmd c).
Proof. intros s. exists []. by rewrite app_nil_r. Qed.

Lemma emits_liftR {A} (r : result A) : emits P (liftR r).
Proof. destruct r; [apply emits_ret | apply emits_fail]. Qed.

Lemma emits_check r : emits P (check r).
Proof. destruct r; [apply emits_fail | apply emits_ret]. Qed.

Lemma emits_emit e : P e = true -> emits P (emit e).
Proof. intros He s. exists [e]. simpl. by rewrite He. Qed.

Lemma emits_call {A} e (answer : list Event -> result A) :
  P e = true -> emits P (call e answer).
Proof. intros He s. exists [e]. simpl. by rewrite He. Qed.

Lemma emits_bind {A B} (m : M A) (k : A -> M B) :
  emits P m -> (forall a, emits P (k a)) -> emits P (bind m k).
Proof.
  intros Hm Hk s. unfold bind. destruct (Hm s) as (evs & Ht & Hp).
  destruct (m s) as [[a|e] s1]; simpl in *.
  - destruct (Hk a s1) as (evs' & Ht' & Hp').
    exists (evs ++ evs'). rewrite Ht', Ht, <- app_assoc. split; [done|].
    rewrite forallb_app. by rewrite Hp, Hp'.
  - by exists evs.
Qed.

Lemma emits_wrapErr {A} (m : M A) msg : emits P m -> emits P (wrapErr m msg).
Proof.
  intros Hm s. unfold wrapErr. destruct (Hm s) as (evs & Ht & Hp).
  exists evs. by destruct (m s) as [[a|e] s1].
Qed.

Lemma emits_try {A} (m : M A) : emits P m -> emits P (try m).
Proof.
  intros Hm s. unfold try. destruct (Hm s) as (evs & Ht & Hp).
  exists evs. by destruct (m s) as [r s1].
Qed.

Lemma emits_when b m : emits P m -> emits P (when b m).
Proof. destruct b; [done|]. intros _. apply emits_ret. Qed.

Lemma emits_poll {L} n (condition : L -> M (bool * L)) l :
  (forall l', emits P (condition l')) -> emits P (poll n condition l).
Proof.
  intros Hc. revert l. induction n as [|n IH]; intros l; simpl.
  - apply emits_bind; [done|]. intros [[] l']; simpl;
      [apply emits_ret | apply emits_fail].
  - apply emits_bind; [done|]. intros [[] l']; simpl;
      [apply emits_ret | apply IH].
Qed.

End Emits.

Section Keeps.

Lemma keeps_ret {A} (a : A) : keeps (ret a).
Proof. done. Qed.

Lemma keeps_fail {A} e : keeps (@fail A e).
Proof. done. Qed.

Lemma keeps_getCmd : keeps getCmd.
Proof. done. Qed.

Lemma keeps_liftR {A} (r : result A) : keeps (liftR r).
Proof. by destruct r. Qed.

Lemma keeps_check r : keeps (check r).
Proof. by destruct r. Qed.

Lemma keeps_emit e : keeps (emit e).
Proof. done. Qed.

Lemma keeps_call {A} e (answer : list Event -> result A) : keeps (call e answer).
Proof. done. Qed.

Lemma keeps_bind {A B} (m : M A) (k : A -> M B) :
  keeps m -> (forall a, keeps (k a)) -> keeps (bind m k).
Proof.
  intros Hm Hk s. unfold bind. specialize (Hm s).
  destruct (m s) as [[a|e] s1]; simpl in *; [|done].
  by rewrite Hk.
Qed.

Lemma keeps_wrapErr {A} (m : M A) msg : keeps m -> keeps (wrapErr m msg).
Proof.
  intros Hm s. unfold wrapErr. specialize (Hm s).
  by destruct (m s) as [[a|e] s1].
Qed.

Lemma keeps_try {A} (m : M A) : keeps m -> keeps (try m).
Proof.
  intros Hm s. unfold try. specialize (Hm s). by destruct (m s) as [r s1].
Qed.

Lemma keeps_when b m : keeps m -> keeps (when b m).
Proof. by destruct b. Qed.

Lemma keeps_poll {L} n (condition : L -> M (bool * L)) l :
  (forall l', keeps (condition l')) -> keeps (poll n condition l).
Proof.
  intros Hc. revert l. induction n as [|n IH]; intros l; simpl.
  - apply keeps_bind; [done|]. by intros [[] l'].
  - apply keeps_bind; [done|]. intros [[] l']; simpl; [done | apply IH].
Qed.

End Keeps.

Create HintDb emits.
#[local] Hint Resolve emits_ret emits_fail emits_getCmd emits_putCmd emits_liftR
  emits_check emits_wrapErr emits_try emits_when emits_poll : emits.
#[local] Hint Extern 2 (emits _ (bind _ _)) => apply emits_bind; [|intros ?] : emits.
#[local] Hint Extern 1 (emits _ (emit _)) => apply emits_emit; reflexivity : emits.
#[local] Hint Extern 1 (emits _ (call _ _)) => apply emits_call; reflexivity : emits.

Create HintDb keeps.
#[local] Hint Resolve keeps_ret keeps_fail keeps_getCmd keeps_liftR keeps_check
  keeps_emit keeps_call keeps_wrapErr keeps_try keeps_when keeps_poll : keeps.
#[local] Hint Extern 2 (keeps (bind _ _)) => apply keeps_bind; [|intros ?] : keeps.

(** Unfolds the plumbing of the monad. *)
Ltac run := unfold bind, ret, fail, getCmd, putCmd, emit, call, try, when,
  check, liftR, wrapErr in *; simpl in *.

Ltac split_match :=
  match goal with
  | |- _ _ (match ?x with _ => _ end) => destruct x
  | |- _ (match ?x with _ => _ end) => destruct x
  end.

Ltac emits_tac :=
  repeat first
    [ apply emits_bind; [|intros ?] | split_match | progress simpl
    | solve [auto with emits] ].

Ltac keeps_tac :=
  repeat first
    [ apply keeps_bind; [|intros ?] | split_match | progress simpl
    | solve [auto with keeps] ].

(** ** The stages and the trace *)

Section Stages.

Variable w : World.

Lemma findPodCondition_emits P name pod :
  (forall ns sel, P (EvListPods ns sel) = true) ->
  emits P (findPodCondition w name pod).
Proof.
  intros HP. unfold findPodCondition.
  apply emits_bind; [auto with emits|intros c].
  apply emits_bind; [by apply emits_call|intros pods].
  emits_tac.
Qed.

Lemma findPod_emits P name :
  (forall ns sel, P (EvListPods ns sel) = true) ->
  emits P (findPod w name).
Proof.
  intros HP. unfold findPod.
  apply emits_bind; [auto with emits|intros c].
  destruct (String.eqb _ _); [|auto with emits].
  apply emits_wrapErr, emits_poll. intros l. by apply findPodCondition_emits.
Qed.

Lemma getKubeConfigCondition_emits P name pod ns l :
  (forall a b, P (EvReadKubeConfig a b) = true) ->
  (forall a b c d, P (EvExec a b c d) = true) ->
  (forall lvl msg, P (EvLog lvl msg) = true) ->
  emits P (getKubeConfigCondition w name pod ns l).
Proof.
  intros H1 H2 H3. unfold getKubeConfigCondition.
  apply emits_bind; [by apply emits_try, emits_call|intros r].
  destruct r; [auto with emits|].
  apply emits_bind; [by apply emits_try, emits_call|intros r'].
  destruct r' as [stdout|e'].
  - destruct (Load w stdout); [|auto with emits].
    apply emits_bind; [by apply emits_emit|intros ?]. auto with emits.
  - apply emits_bind; [by apply emits_when, emits_emit|intros ?].
    auto with emits.
Qed.

Lemma GetKubeConfig_emits P name pod ns :
  (forall a b, P (EvReadKubeConfig a b) = true) ->
  (forall a b c d, P (EvExec a b c d) = true) ->
  (forall lvl msg, P (EvLog lvl msg) = true) ->
  emits P (GetKubeConfig w name pod ns).
Proof.
  intros H1 H2 H3. unfold GetKubeConfig.
  apply emits_bind; [|auto with emits].
  apply emits_wrapErr, emits_poll. intros l.
  by apply getKubeConfigCondition_emits.
Qed.

Lemma Connect_setup_emits P name : emits P (Connect_setup w name).
Proof.
  unfold Connect_setup.
  apply emits_bind; [auto with emits|intros ?].
  apply emits_bind; [auto with emits|intros ?].
  apply emits_bind; [auto with emits|intros c].
  apply emits_bind.
  { apply emits_when. apply emits_bind; auto with emits. }
  intros ?. apply emits_bind; [auto with emits|intros c'].
  destruct (_ && _); auto with emits.
Qed.

(** Up to the fetched kube config, [Connect] lists pods, reads the
    secret, runs the command in the pod and logs; nothing else. *)
Lemma Connect_fetch_emits P name :
  (forall ns sel, P (EvListPods ns sel) = true) ->
  (forall a b, P (EvReadKubeConfig a b) = true) ->
  (forall a b c d, P (EvExec a b c d) = true) ->
  (forall lvl msg, P (EvLog lvl msg) = true) ->
  emits P (Connect_fetch w name).
Proof.
  intros H0 H1 H2 H3. unfold Connect_fetch.
  apply emits_bind; [apply Connect_setup_emits|intros ?].
  apply emits_bind; [by apply findPod_emits|intros pod].
  apply emits_bind; [auto with emits|intros c].
  apply emits_bind; [by apply emits_wrapErr, GetKubeConfig_emits|intros p].
  destruct p; auto with emits.
Qed.

Lemma updateKubeConfig_emits P ctx cl au act :
  (forall c, P (EvModifyConfig c) = true) ->
  emits P (updateKubeConfig w ctx cl au act).
Proof.
  intros HP. unfold updateKubeConfig.
  apply emits_bind; [auto with emits|intros config].
  apply emits_bind; [by apply emits_emit|intros ?]. auto with emits.
Qed.

Lemma writeKubeConfig_emits P name kc :
  (forall c, P (EvModifyConfig c) = true) ->
  (forall lvl msg, P (EvLog lvl msg) = true) ->
  (forall out, P (EvStdout out) = true) ->
  (forall path out, P (EvWriteFile path out) = true) ->
  emits P (writeKubeConfig w name kc).
Proof.
  intros H1 H2 H3 H4. unfold writeKubeConfig.
  apply emits_bind; [auto with emits|intros out].
  apply emits_bind; [auto with emits|intros c].
  destruct (UpdateCurrent c); [|destruct (Print c)].
  - apply emits_bind; [by apply updateKubeConfig_emits|intros ?].
    by apply emits_emit.
  - apply emits_bind; [by apply emits_emit|intros ?]. auto with emits.
  - apply emits_bind; [by apply emits_emit|intros ?].
    apply emits_bind; [auto with emits|intros ?]. by apply emits_emit.
Qed.

Lemma findPod_keeps name : keeps (findPod w name).
Proof.
  unfold findPod. apply keeps_bind; [auto with keeps|intros c].
  destruct (String.eqb _ _); [|auto with keeps].
  apply keeps_wrapErr, keeps_poll. intros l. unfold findPodCondition.
  keeps_tac.
Qed.

Lemma GetKubeConfig_keeps name pod ns : keeps (GetKubeConfig w name pod ns).
Proof.
  unfold GetKubeConfig. apply keeps_bind; [|auto with keeps].
  apply keeps_wrapErr, keeps_poll. intros l. unfold getKubeConfigCondition.
  keeps_tac.
Qed.

Lemma writeKubeConfig_keeps name kc : keeps (writeKubeConfig w name kc).
Proof.
  unfold writeKubeConfig, updateKubeConfig.
  keeps_tac.
Qed.

End Stages.

(** ** Tunnel mode leaves the command alone *)

Section Tunnel.

Variable w : World.

Lemma rewriteServers_tunnel keys kubeConfig port s :
  Server (cmd s) = "" ->
  (rewriteServers keys kubeConfig port s).2 = s.
Proof.
  intros Hs. revert kubeConfig port.
  induction keys as [|k keys IH]; intros kubeConfig port; [done|].
  simpl. run. rewrite Hs. simpl.
  destruct (api.Clusters kubeConfig !! k) as [cl|]; [|done].
  destruct (length _ =? 3)%nat; simpl; [apply IH|done].
Qed.

Lemma rewriteServers_emits P keys kubeConfig port :
  emits P (rewriteServers keys kubeConfig port).
Proof.
  revert kubeConfig port.
  induction keys as [|k keys IH]; intros kubeConfig port; simpl;
    [auto with emits|].
  apply emits_bind; [auto with emits|intros c].
  destruct (negb _).
  - apply emits_bind; [auto with emits|intros ?].
    apply emits_bind; [auto with emits|intros ?]. apply IH.
  - destruct (_ !! _); [|auto with emits].
    destruct (negb _); [auto with emits|apply IH].
Qed.

Lemma forward_tunnel podName port s :
  Server (cmd s) = "" ->
  forward w podName port s =
    (match StartPortForwardingWithRestart w (Address (cmd s)) podName
             (Namespace (cmd s)) (strconv.Itoa (LocalPort (cmd s))) port with
     | Some e => Err e
     | None => Ok tt
     end,
     {| cmd := cmd s;
        trace := trace s ++
          [EvPortForward (Address (cmd s)) podName (Namespace (cmd s))
             (strconv.Itoa (LocalPort (cmd s))) port] |}).
Proof.
  intros Hs. unfold forward. run. rewrite Hs. simpl.
  by destruct (StartPortForwardingWithRestart _ _ _ _ _ _).
Qed.

Lemma forward_direct podName port s :
  Server (cmd s) <> "" -> forward w podName port s = (Ok tt, s).
Proof.
  intros Hs. unfold forward. run.
  apply String.eqb_neq in Hs. by rewrite Hs.
Qed.

Lemma forward_emits P podName port :
  (forall a b c d e, P (EvPortForward a b c d e) = true) ->
  emits P (forward w podName port).
Proof.
  intros HP. unfold forward.
  apply emits_bind; [auto with emits|intros c].
  destruct (negb _); [auto with emits|].
  apply emits_bind; [by apply emits_emit|intros ?]. auto with emits.
Qed.

Lemma Connect_setup_server name s :
  Server (cmd (Connect_setup w name s).2) = Server (cmd s).
Proof.
  unfold Connect_setup. run.
  destruct (ClientConfig w); simpl; [|done].
  destruct (NewForConfig w); simpl; [|done].
  destruct (String.eqb (Namespace (cmd s)) ""); simpl.
  - destruct (LoaderNamespace w) as [ns [e|]]; simpl; [done|].
    by destruct (_ && _).
  - by destruct (_ && _).
Qed.

Lemma Connect_fetch_server name s :
  Server (cmd (Connect_fetch w name s).2) = Server (cmd s).
Proof.
  unfold Connect_fetch, bind at 1.
  pose proof (Connect_setup_server name s) as H0.
  destruct (Connect_setup w name s) as [[[]|e] s0]; simpl in *; [|done].
  unfold bind at 1. pose proof (findPod_keeps w name s0) as H1.
  destruct (findPod w name s0) as [[pod|e] s1]; simpl in *;
    [|by rewrite H1].
  unfold bind at 1. simpl. unfold bind.
  pose proof (keeps_wrapErr _ "failed to parse kube config"
    (GetKubeConfig_keeps w name pod (Namespace (cmd s1))) s1) as H2.
  destruct (wrapErr _ _ s1) as [[[kc|]|e] s2]; simpl in *;
    by rewrite H2, H1.
Qed.

(** In tunnel mode the tail of [Connect] leaves the command alone, and
    it returns nil only out of the port forwarding. *)
Lemma Connect_rewrite_tunnel name podName kubeConfig s :
  Server (cmd s) = "" ->
  cmd (Connect_rewrite w name podName kubeConfig s).2 = cmd s /\
  ((Connect_rewrite w name podName kubeConfig s).1 = Ok tt ->
   exists tr remotePort,
     trace (Connect_rewrite w name podName kubeConfig s).2 =
       tr ++ [EvPortForward (Address (cmd s)) podName (Namespace (cmd s))
                (strconv.Itoa (LocalPort (cmd s))) remotePort]).
Proof.
  intros Hs. unfold Connect_rewrite, rewriteServer, bind.
  pose proof (rewriteServers_tunnel
    (map_to_list (api.Clusters kubeConfig)).*1 kubeConfig "" s Hs) as H1.
  destruct (rewriteServers _ _ _ _) as [[[kc' port]|e] s1];
    simpl in *; subst s1; [|done].
  pose proof (writeKubeConfig_keeps w name kc' s) as H2.
  destruct (writeKubeConfig w name kc' s) as [[[]|e] s2]; simpl in *; [|done].
  assert (Hs2 : Server (cmd s2) = "") by by rewrite H2.
  rewrite (forward_tunnel podName port s2 Hs2). simpl. rewrite H2.
  split; [done|]. intros _. by exists (trace s2), port.
Qed.

End Tunnel.

(** ** The properties of the specification *)

(** C9. Called with neither a vcluster name nor a pod name, [Connect]
    returns an error and adds nothing to the trace: no pod is listed, no
    kube config fetched, no service read and no port forwarded.  When the
    client set-up itself succeeds the error is the "please specify either
    --pod or a name" one. *)
Theorem C9_neither_name_nor_pod (w : World) (s : St) :
  PodName (cmd s) = "" ->
  exists e,
    (Connect w "" s).1 = Err e /\
    trace (Connect w "" s).2 = trace s /\
    (ClientConfig w = Ok tt -> NewForConfig w = Ok tt ->
     (Namespace (cmd s) <> "" \/ (LoaderNamespace w).2 = None) ->
     e = errNoTarget).
Proof.
  intros Hpod. unfold Connect, Connect_fetch, Connect_setup. run.
  destruct (ClientConfig w) as [[]|e1]; simpl.
  2:{ eexists; repeat split; intros; congruence. }
  destruct (NewForConfig w) as [[]|e2]; simpl.
  2:{ eexists; repeat split; intros; congruence. }
  destruct (String.eqb (Namespace (cmd s)) "") eqn:Hns; simpl.
  - destruct (LoaderNamespace w) as [ns [e3|]]; simpl.
    + eexists; repeat split. intros _ _ [Hne|Hnone]; [|done].
      apply String.eqb_eq in Hns. done.
    + rewrite Hpod. simpl. by eexists.
  - rewrite Hpod. simpl. by eexists.
Qed.

(** C2. A fetched kube config whose [Clusters] map has no entry or more
    than one ends [Connect] at once with "unexpected kube config": the run
    stops in the state the fetch left, so nothing is retried, and the trace
    holds no service read and no port forwarding. *)
Theorem C2_not_one_cluster (w : World) (vclusterName podName : string)
    (kubeConfig : api.Config) (s s' : St) :
  Connect_fetch w vclusterName s = (Ok (podName, kubeConfig), s') ->
  size (api.Clusters kubeConfig) <> 1%nat ->
  Connect w vclusterName s = (Err errUnexpectedKubeConfig, s') /\
  Connect_fetched w vclusterName podName kubeConfig s' =
    (Err errUnexpectedKubeConfig, s') /\
  exists evs, trace s' = trace s ++ evs /\
    forallb (fun e => negb (isGetService e) && negb (isPortForward e)) evs = true.
Proof.
  intros Hfetch Hsize.
  assert (Hchk : (size (api.Clusters kubeConfig) =? 1)%nat = false)
    by by apply Nat.eqb_neq.
  assert (Hfetched : Connect_fetched w vclusterName podName kubeConfig s' =
            (Err errUnexpectedKubeConfig, s')).
  { unfold Connect_fetched. by rewrite Hchk. }
  split; [|split; [done|]].
  - unfold Connect, bind. by rewrite Hfetch.
  - pose proof (Connect_fetch_emits w
      (fun e => negb (isGetService e) && negb (isPortForward e)) vclusterName)
      as Hem.
    destruct (Hem ltac:(done) ltac:(done) ltac:(done) ltac:(done) s)
      as (evs & Ht & Hp).
    rewrite Hfetch in Ht. by exists evs.
Qed.

(** C5. When the first read of the service says "not found", or finds a
    service that is not of type LoadBalancer, the condition reports done
    without an error on that first check, and the whole stage succeeds with
    one service read, no notice and [cmd.Server] still empty, however many
    ticks the poll would have had. *)
Theorem C5_no_endpoint_first_poll (w : World) (vclusterName : string) (s : St) :
  vclusterName <> "" ->
  Server (cmd s) = "" ->
  noEndpointExpected
    (GetService w (count isGetService (trace s)) (Namespace (cmd s)) vclusterName)
    = true ->
  let s' := {| cmd := cmd s;
               trace := trace s ++ [EvGetService (Namespace (cmd s)) vclusterName] |} in
  exposedCondition w vclusterName false s = (Ok (true, false), s') /\
  checkExposed w vclusterName s = (Ok tt, s') /\
  Server (cmd s') = "".
Proof.
  intros Hname Hsrv Hans s'.
  assert (Hcond : exposedCondition w vclusterName false s = (Ok (true, false), s')).
  { unfold exposedCondition. run.
    destruct (GetService w _ _ _) as [service|e]; simpl in *.
    - by rewrite Hans.
    - by rewrite Hans. }
  split; [done|]. split; [|done].
  unfold checkExposed. run. rewrite Hsrv. simpl.
  apply String.eqb_neq in Hname. rewrite Hname. simpl.
  destruct (ticks w 2 300); simpl; unfold bind; by rewrite Hcond.
Qed.

(** C10. Called with a pod name only (the vcluster name is empty),
    [Connect] never reads the service; and when no server was given either,
    [cmd.Server] stays empty to the end and [Connect] returns nil only
    after it has started the port forwarding. *)
Theorem C10_pod_only_skips_discovery (w : World) (s : St) :
  (exists evs, trace (Connect w "" s).2 = trace s ++ evs /\
     forallb (fun e => negb (isGetService e)) evs = true) /\
  (Server (cmd s) = "" ->
   Server (cmd (Connect w "" s).2) = "" /\
   ((Connect w "" s).1 = Ok tt ->
    exists tr e,
      trace (Connect w "" s).2 = tr ++ [e] /\ isPortForward e = true)).
Proof.
  split.
  - assert (Hem : emits (fun e => negb (isGetService e)) (Connect w "")).
    { unfold Connect. apply emits_bind; [by apply Connect_fetch_emits|].
      intros [podName kubeConfig]. unfold Connect_fetched. simpl.
      destruct (negb _); [auto with emits|].
      apply emits_bind.
      { unfold checkExposed. apply emits_bind; [auto with emits|intros c].
        simpl. auto with emits. }
      intros ?. unfold Connect_rewrite.
      apply emits_bind; [apply rewriteServers_emits|intros r].
      apply emits_bind; [by apply writeKubeConfig_emits|intros ?].
      by apply forward_emits. }
    apply Hem.
  - intros Hsrv. unfold Connect, bind.
    pose proof (Connect_fetch_server w "" s) as Hf.
    destruct (Connect_fetch w "" s) as [[[podName kubeConfig]|e] s1];
      simpl in *; [|by rewrite Hf].
    rewrite Hsrv in Hf. unfold Connect_fetched.
    destruct (negb _); simpl; [done|].
    unfold bind. unfold checkExposed. run.
    destruct (Connect_rewrite_tunnel w "" podName kubeConfig s1 Hf) as [Hc Hr].
    split; [by rewrite Hc|].
    intros Hok. destruct (Hr Hok) as (tr & remotePort & Ht).
    rewrite Ht. by eexists _, _.
Qed.

(** ** Splitting a server address *)

Lemma Split_lacks (s : string) :
  lacks ":" s = true -> strings.Split s ":" = [s].
Proof.
  induction s as [|c s IH]; simpl; [done|].
  intros [Hc Hs]%andb_prop. apply negb_true_iff in Hc.
  by rewrite Hc, (IH Hs).
Qed.

Lemma Split_segment (a rest : string) :
  lacks ":" a = true ->
  strings.Split (a +:+ String ":" rest) ":" = a :: strings.Split rest ":".
Proof.
  induction a as [|c a IH]; simpl; [done|].
  intros [Hc Ha]%andb_prop. apply negb_true_iff in Hc.
  by rewrite Hc, (IH Ha).
Qed.

Lemma Split_server (scheme host port : string) :
  lacks ":" scheme = true -> lacks ":" host = true -> lacks ":" port = true ->
  strings.Split (scheme +:+ "://" +:+ host +:+ ":" +:+ port) ":"
  = [scheme; "//" +:+ host; port].
Proof.
  intros Hs Hh Hp.
  change (scheme +:+ "://" +:+ host +:+ ":" +:+ port)
    with (scheme +:+ String ":" (("//" +:+ host) +:+ String ":" port)).
  rewrite Split_segment by done.
  rewrite Split_segment by done.
  by rewrite Split_lacks.
Qed.

(** C1. In tunnel mode ([cmd.Server] is empty), for a kube config whose
    one cluster has the server [scheme://host:port], the rewriting stores
    [scheme://host:<local port>] and keeps [port]; and once the kube config
    is written out, [port] is the remote port the port forwarding is started
    with, next to the local port. *)
Theorem C1_tunnel_rewrites_port (w : World) (vclusterName podName : string)
    (kubeConfig : api.Config) (k : string) (cl : api.Cluster)
    (scheme host port : string) (s : St) :
  Server (cmd s) = "" ->
  api.Clusters kubeConfig = {[ k := cl ]} ->
  api.Server cl = scheme +:+ "://" +:+ host +:+ ":" +:+ port ->
  lacks ":" scheme = true -> lacks ":" host = true -> lacks ":" port = true ->
  let localPort := strconv.Itoa (LocalPort (cmd s)) in
  let kubeConfig' :=
    api.setClusters kubeConfig
      {[ k := api.setServer cl (scheme +:+ "://" +:+ host +:+ ":" +:+ localPort) ]} in
  rewriteServer kubeConfig s = (Ok (kubeConfig', port), s) /\
  forall s1, writeKubeConfig w vclusterName kubeConfig' s = (Ok tt, s1) ->
    Connect_rewrite w vclusterName podName kubeConfig s =
      (match StartPortForwardingWithRestart w (Address (cmd s)) podName
               (Namespace (cmd s)) localPort port with
       | Some e => Err e
       | None => Ok tt
       end,
       {| cmd := cmd s;
          trace := trace s1 ++
            [EvPortForward (Address (cmd s)) podName (Namespace (cmd s))
               localPort port] |}).
Proof.
  intros Hsrv Hcl Hserver Hs Hh Hp localPort kubeConfig'.
  assert (Hrw : rewriteServer kubeConfig s = (Ok (kubeConfig', port), s)).
  { unfold rewriteServer. rewrite Hcl, map_to_list_singleton. simpl. run.
    rewrite Hsrv. simpl. rewrite Hcl, lookup_singleton_eq, Hserver.
    rewrite (Split_server scheme host port Hs Hh Hp). simpl.
    by rewrite insert_singleton_eq. }
  split; [done|]. intros s1 Hw.
  unfold Connect_rewrite, bind. rewrite Hrw. simpl. rewrite Hw.
  pose proof (writeKubeConfig_keeps w vclusterName kubeConfig' s) as Hk.
  rewrite Hw in Hk. simpl in Hk.
  rewrite forward_tunnel by by rewrite Hk. by rewrite Hk.
Qed.

(** C6. In direct-endpoint mode ([cmd.Server] is set, given or
    discovered) the rewriting puts [https://] in front of the address unless
    it is there, stores the address as the server of the cluster, whatever
    the server was, and [Connect] ends with the writing out of the kube
    config: it returns what the writing returns and no port forwarding is in
    the trace. *)
Theorem C6_direct_endpoint (w : World) (vclusterName podName : string)
    (kubeConfig : api.Config) (k : string) (cl : api.Cluster) (s : St) :
  Server (cmd s) <> "" ->
  api.Clusters kubeConfig = {[ k := cl ]} ->
  let prefixed := strings.HasPrefix (Server (cmd s)) "https://" in
  let server := if prefixed then Server (cmd s) else "https://" +:+ Server (cmd s) in
  let s0 := if prefixed then s
            else {| cmd := setServer (cmd s) server; trace := trace s |} in
  let kubeConfig' :=
    api.setClusters kubeConfig {[ k := api.setServer cl server ]} in
  rewriteServer kubeConfig s = (Ok (kubeConfig', ""), s0) /\
  Server (cmd s0) = server /\
  Connect_rewrite w vclusterName podName kubeConfig s =
    writeKubeConfig w vclusterName kubeConfig' s0 /\
  exists evs,
    trace (Connect_rewrite w vclusterName podName kubeConfig s).2 = trace s ++ evs /\
    forallb (fun e => negb (isPortForward e)) evs = true.
Proof.
  intros Hsrv Hcl prefixed server s0 kubeConfig'.
  assert (Hne : String.eqb (Server (cmd s)) "" = false) by by apply String.eqb_neq.
  assert (Hs0 : Server (cmd s0) = server).
  { subst s0 server. by destruct prefixed. }
  assert (Hrw : rewriteServer kubeConfig s = (Ok (kubeConfig', ""), s0)).
  { unfold rewriteServer. rewrite Hcl, map_to_list_singleton. simpl. run.
    rewrite Hne. simpl. fold prefixed.
    subst kubeConfig' s0 server. rewrite Hcl.
    destruct prefixed; simpl; by rewrite alter_singleton_eq. }
  assert (Hserver : server <> "").
  { subst server. by destruct prefixed. }
  assert (Hrun : Connect_rewrite w vclusterName podName kubeConfig s =
            writeKubeConfig w vclusterName kubeConfig' s0).
  { unfold Connect_rewrite, bind. rewrite Hrw. simpl.
    pose proof (writeKubeConfig_keeps w vclusterName kubeConfig' s0) as Hk.
    destruct (writeKubeConfig w vclusterName kubeConfig' s0) as [[[]|e] s1];
      simpl in *; [|done].
    apply forward_direct. by rewrite Hk, Hs0. }
  repeat split; [done..|].
  rewrite Hrun.
  destruct (writeKubeConfig_emits w (fun e => negb (isPortForward e))
    vclusterName kubeConfig' ltac:(done) ltac:(done) ltac:(done) ltac:(done) s0)
    as (evs & Ht & Hp).
  exists evs. split; [|done]. rewrite Ht. subst s0. by destruct prefixed.
Qed.

(** ** The newest pod comes first *)

Section Newest.

Lemma insert_elem x l y : y ∈ sort.insert newer x l <-> y = x \/ y ∈ l.
Proof.
  induction l as [|z l IH]; simpl.
  - rewrite list_elem_of_singleton, elem_of_nil. tauto.
  - destruct (newer x z); [by rewrite elem_of_cons|].
    rewrite !elem_of_cons, IH. tauto.
Qed.

Lemma insert_newestFirst x l : newestFirst l -> newestFirst (sort.insert newer x l).
Proof.
  destruct l as [|z l]; simpl.
  - intros _. repeat constructor. lia.
  - intros Hz. unfold newer at 1. destruct (Z.gtb_spec
      (corev1.CreationTimestamp x) (corev1.CreationTimestamp z)) as [Hgt|Hle].
    + constructor; [lia|]. eapply Forall_impl; [exact Hz|]. simpl. lia.
    + apply Forall_forall. intros q [->|Hq]%elem_of_cons; [lia|].
      apply insert_elem in Hq as [->|Hq]; [done|].
      rewrite Forall_forall in Hz. apply Hz. by right.
Qed.

Lemma Slice_fold_elem l acc y :
  y ∈ fold_left (fun acc x => sort.insert newer x acc) l acc <-> y ∈ l \/ y ∈ acc.
Proof.
  revert acc. induction l as [|x l IH]; intros acc; simpl.
  - rewrite elem_of_nil. tauto.
  - rewrite IH, insert_elem, elem_of_cons. tauto.
Qed.

Lemma Slice_fold_newestFirst l acc :
  newestFirst acc ->
  newestFirst (fold_left (fun acc x => sort.insert newer x acc) l acc).
Proof.
  revert acc. induction l as [|x l IH]; intros acc Hacc; simpl; [done|].
  by apply IH, insert_newestFirst.
Qed.

(** What [sort.Slice] puts first is one of the pods, and none is newer. *)
Lemma Slice_top pods :
  pods <> [] ->
  exists top rest,
    sort.Slice newer pods = top :: rest /\ top ∈ pods /\
    Forall (fun q => (corev1.CreationTimestamp q <= corev1.CreationTimestamp top)%Z) pods.
Proof.
  intros Hne. unfold sort.Slice.
  pose proof (Slice_fold_newestFirst pods [] I) as Hnf.
  pose proof (Slice_fold_elem pods []) as Hel.
  destruct (fold_left _ pods []) as [|top rest].
  - destruct pods as [|p pods]; [done|].
    destruct (Hel p) as [_ Hp]. exfalso.
    eapply elem_of_nil, Hp. left. by left.
  - exists top, rest. split; [done|]. split.
    + destruct (Hel top) as [Ht _].
      destruct Ht as [Ht|Ht]; [by left|done|by apply elem_of_nil in Ht].
    + simpl in Hnf. rewrite Forall_forall in Hnf. apply Forall_forall.
      intros q Hq. apply Hnf, Hel. by left.
Qed.

End Newest.

(** One check of the resolver on a non-empty answer: it looks at a newest
    pod, and at that pod only. *)
Lemma findPodCondition_top (w : World) (vclusterName podName : string) (s : St)
    (pods : list corev1.Pod) :
  ListPods w (count isListPods (trace s)) (Namespace (cmd s))
    ("app=vcluster,release=" +:+ vclusterName) = Ok pods ->
  pods <> [] ->
  exists top,
    top ∈ pods /\
    Forall (fun q => (corev1.CreationTimestamp q <= corev1.CreationTimestamp top)%Z) pods /\
    (findPodCondition w vclusterName podName s).1 =
      Ok (match corev1.DeletionTimestamp top with
          | Some _ => (false, podName)
          | None => (true, corev1.Name top)
          end).
Proof.
  intros Hlist Hne.
  destruct (Slice_top pods Hne) as (top & rest & Hsort & Hin & Hmax).
  exists top. split; [done|]. split; [done|].
  unfold findPodCondition. run. rewrite Hlist. simpl.
  destruct pods as [|p pods]; [done|]. 
  change (length (p :: pods) =? 0)%nat with false. cbv iota.
  rewrite Hsort. simpl. by destruct (corev1.DeletionTimestamp top).
Qed.

(** C3. On a non-empty list of pods, the pod one check of the resolver
    chooses, when it chooses one, is among the candidates, carries no
    deletion timestamp and no candidate was created after it; and when a pod
    with a deletion timestamp is newer than every candidate without one,
    the check chooses none: it says "not done" and leaves [podName] as it
    was, also when that pod is the only candidate. *)
Theorem C3_newest_or_none (w : World) (vclusterName podName : string) (s : St)
    (pods : list corev1.Pod) :
  ListPods w (count isListPods (trace s)) (Namespace (cmd s))
    ("app=vcluster,release=" +:+ vclusterName) = Ok pods ->
  pods <> [] ->
  (forall chosen,
     (findPodCondition w vclusterName podName s).1 = Ok (true, chosen) ->
     exists p, p ∈ pods /\ corev1.Name p = chosen /\
       corev1.DeletionTimestamp p = None /\
       Forall (fun q => (corev1.CreationTimestamp q <= corev1.CreationTimestamp p)%Z) pods) /\
  (forall m, m ∈ pods -> corev1.DeletionTimestamp m <> None ->
     Forall (fun q => (corev1.CreationTimestamp q < corev1.CreationTimestamp m)%Z \/
                      corev1.DeletionTimestamp q <> None) pods ->
     (findPodCondition w vclusterName podName s).1 = Ok (false, podName)).
Proof.
  intros Hlist Hne.
  destruct (findPodCondition_top w vclusterName podName s pods Hlist Hne)
    as (top & Hin & Hmax & Hres).
  rewrite Hres. split.
  - intros chosen Hc. exists top.
    destruct (corev1.DeletionTimestamp top) eqn:Hdel; [done|].
    by simplify_eq.
  - intros m Hm Hdel Hall.
    rewrite Forall_forall in Hall, Hmax.
    destruct (Hall top Hin) as [Hlt|Htop].
    + specialize (Hmax m Hm). lia.
    + by destruct (corev1.DeletionTimestamp top).
Qed.

(** ** Fetching the kube config *)

Section Fetch.

Variable w : World.
Variables vclusterName podName namespace : string.

#[local] Abbreviation condition :=
  (getKubeConfigCondition w vclusterName podName namespace).

(** The secret cannot be read and the command in the pod fails: the
    condition says "not done", without an error. *)
Lemma getKubeConfigCondition_waiting l s :
  failed (readAt w vclusterName namespace s 0) = true ->
  failed (execAt w podName namespace s 0) = true ->
  condition l s =
    (Ok (false, (None, true)),
     {| cmd := cmd s;
        trace := trace s ++
          [EvReadKubeConfig vclusterName namespace;
           EvExec namespace podName "syncer" catKubeConfig] ++
          (if l.2 then [] else [EvLog LInfo msgWaiting]) |}).
Proof.
  unfold readAt, execAt. simpl. rewrite !Nat.add_0_r.
  intros Hread Hexec. unfold getKubeConfigCondition. run.
  destruct (ReadKubeConfig w _ _ _); [done|]. simpl.
  rewrite count_app. change (count isExec [_]) with 0%nat. rewrite Nat.add_0_r.
  fold catKubeConfig.
  destruct (ExecBuffered w _ _ _ _ _); [done|].
  destruct l as [kc []]; run; by rewrite <- !app_assoc.
Qed.

(** The secret cannot be read, the command in the pod succeeds and its
    output parses: the condition is done with the parsed kube config and
    the notice of the fallback. *)
Lemma getKubeConfigCondition_fallback l s stdout kubeConfig :
  failed (readAt w vclusterName namespace s 0) = true ->
  execAt w podName namespace s 0 = Ok stdout ->
  Load w stdout = Ok kubeConfig ->
  condition l s =
    (Ok (true, (Some kubeConfig, l.2)),
     {| cmd := cmd s;
        trace := trace s ++
          [EvReadKubeConfig vclusterName namespace;
           EvExec namespace podName "syncer" catKubeConfig;
           EvLog LInfo msgFallback] |}).
Proof.
  unfold readAt, execAt. simpl. rewrite !Nat.add_0_r.
  intros Hread Hexec Hload. unfold getKubeConfigCondition. run.
  destruct (ReadKubeConfig w _ _ _); [done|]. simpl.
  rewrite count_app. change (count isExec [_]) with 0%nat. rewrite Nat.add_0_r.
  fold catKubeConfig. rewrite Hexec, Hload. simpl. by rewrite <- !app_assoc.
Qed.

(** The command in the pod succeeds but its output does not parse: the
    condition returns an error, which ends the poll. *)
Lemma getKubeConfigCondition_unparsable l s stdout e :
  failed (readAt w vclusterName namespace s 0) = true ->
  execAt w podName namespace s 0 = Ok stdout ->
  Load w stdout = Err e ->
  (condition l s).1 = Err (Errorf ("failed to parse kube config: " +:+ Error e)).
Proof.
  unfold readAt, execAt. simpl. rewrite !Nat.add_0_r.
  intros Hread Hexec Hload. unfold getKubeConfigCondition. run.
  destruct (ReadKubeConfig w _ _ _); [done|]. simpl.
  rewrite count_app. change (count isExec [_]) with 0%nat. rewrite Nat.add_0_r.
  fold catKubeConfig. by rewrite Hexec, Hload.
Qed.

Lemma poll_fallback (k : nat) kubeConfig stdout :
  forall n l s,
  (k <= n)%nat ->
  (forall i, (i <= k)%nat -> failed (readAt w vclusterName namespace s i) = true) ->
  (forall i, (i < k)%nat -> failed (execAt w podName namespace s i) = true) ->
  execAt w podName namespace s k = Ok stdout ->
  Load w stdout = Ok kubeConfig ->
  exists printedWaiting s' evs,
    poll n condition l s = (Ok (Some kubeConfig, printedWaiting), s') /\
    trace s' = trace s ++ evs /\
    count (isLog msgFallback) evs = 1%nat /\
    count isReadKubeConfig evs = S k.
Proof.
  induction k as [|k IH]; intros n l s Hkn Hread Hexec Hok Hload.
  - assert (Hc := getKubeConfigCondition_fallback l s stdout kubeConfig
      (Hread 0%nat (Nat.le_refl _)) Hok Hload).
    eexists _, _, _. split.
    { destruct n; simpl; unfold bind; by rewrite Hc. }
    simpl. split; [reflexivity|by split].
  - destruct n as [|n]; [lia|].
    assert (Hc := getKubeConfigCondition_waiting l s
      (Hread 0%nat (Nat.le_0_l _)) (Hexec 0%nat (Nat.lt_0_succ _))).
    set (s1 := (condition l s).2).
    assert (Hs1 : trace s1 = trace s ++
       [EvReadKubeConfig vclusterName namespace;
        EvExec namespace podName "syncer" catKubeConfig] ++
       (if l.2 then [] else [EvLog LInfo msgWaiting])).
    { subst s1. by rewrite Hc. }
    assert (Hr : forall i, (count isReadKubeConfig (trace s1) + i
                           = count isReadKubeConfig (trace s) + S i)%nat).
    { intros i. rewrite Hs1, count_app. destruct l.2; simpl;
        change (count isReadKubeConfig _) with 1%nat at 2; lia. }
    assert (He : forall i, (count isExec (trace s1) + i
                           = count isExec (trace s) + S i)%nat).
    { intros i. rewrite Hs1, count_app. destruct l.2; simpl;
        change (count isExec _) with 1%nat at 2; lia. }
    destruct (IH n (None, true) s1) as (pw & s' & evs & Hp & Ht & Hf & Hn).
    + lia.
    + intros i Hi. unfold readAt. rewrite Hr. apply Hread. lia.
    + intros i Hi. unfold execAt. rewrite He. apply Hexec. lia.
    + unfold execAt. by rewrite He.
    + done.
    + exists pw, s'.
      exists ([EvReadKubeConfig vclusterName namespace;
               EvExec namespace podName "syncer" catKubeConfig] ++
              (if l.2 then [] else [EvLog LInfo msgWaiting]) ++ evs).
      split; [|split; [|split]].
      * simpl. unfold bind. rewrite Hc. simpl. subst s1. by rewrite Hc in Hp.
      * rewrite Ht, Hs1. destruct l.2; simpl; by rewrite <- !app_assoc.
      * destruct l.2; simpl; exact Hf.
      * destruct l.2; simpl.
        -- change (count isReadKubeConfig (_ :: _ :: evs))
             with (count isReadKubeConfig
                     ([EvReadKubeConfig vclusterName namespace] ++ evs)).
           rewrite count_app, Hn. reflexivity.
        -- change (count isReadKubeConfig (_ :: _ :: _ :: evs))
             with (count isReadKubeConfig
                     ([EvReadKubeConfig vclusterName namespace] ++ evs)).
           rewrite count_app, Hn. reflexivity.
Qed.

End Fetch.

(** C4. The secret cannot be read in any iteration, the command in the
    pod fails in the first [N] iterations and succeeds in the next one,
    within the deadline, with an output that parses: [GetKubeConfig]
    returns the parsed kube config after [N + 1] iterations, and the notice
    of the fallback is in the trace once, whatever [N] is. *)
Theorem C4_fallback_notice_once (w : World) (vclusterName podName namespace : string)
    (N : nat) (kubeConfig : api.Config) (stdout : string) (s : St) :
  (N <= ticks w 2 600)%nat ->
  (forall i, (i <= N)%nat ->
     failed (ReadKubeConfig w (count isReadKubeConfig (trace s) + i)
               vclusterName namespace) = true) ->
  (forall i, (i < N)%nat ->
     failed (ExecBuffered w (count isExec (trace s) + i) namespace podName
               "syncer" catKubeConfig) = true) ->
  ExecBuffered w (count isExec (trace s) + N) namespace podName "syncer"
    catKubeConfig = Ok stdout ->
  Load w stdout = Ok kubeConfig ->
  exists s' evs,
    GetKubeConfig w vclusterName podName namespace s = (Ok (Some kubeConfig), s') /\
    trace s' = trace s ++ evs /\
    count (isLog msgFallback) evs = 1%nat /\
    count isReadKubeConfig evs = S N.
Proof.
  intros HN Hread Hexec Hok Hload.
  destruct (poll_fallback w vclusterName podName namespace N kubeConfig stdout
    (ticks w 2 600) (None, false) s HN Hread Hexec Hok Hload)
    as (pw & s' & evs & Hp & Ht & Hf & Hn).
  exists s', evs. split; [|done].
  unfold GetKubeConfig, bind, wrapErr. by rewrite Hp.
Qed.

(** ** The notice of waiting *)

Lemma getKubeConfigCondition_notice (w : World)
    (vclusterName podName namespace : string) l s :
  exists evs,
    trace (getKubeConfigCondition w vclusterName podName namespace l s).2
      = trace s ++ evs /\
    (count (isLog msgWaiting) evs <= if l.2 then 0 else 1)%nat /\
    (forall l', (getKubeConfigCondition w vclusterName podName namespace l s).1
                = Ok (false, l') -> l'.2 = true).
Proof.
  unfold getKubeConfigCondition. run.
  destruct (ReadKubeConfig w _ _ _); simpl.
  { exists [EvReadKubeConfig vclusterName namespace].
    split; [done|]. split; [vm_compute; destruct l.2; lia|done]. }
  destruct (ExecBuffered w _ _ _ _ _) as [stdout|e']; simpl.
  - destruct (Load w stdout); simpl.
    + eexists. rewrite <- !app_assoc. split; [reflexivity|].
      split; [vm_compute; destruct l.2; lia|done].
    + eexists. rewrite <- !app_assoc. split; [reflexivity|].
      split; [vm_compute; destruct l.2; lia|done].
  - destruct l as [kc []]; simpl.
    + eexists. rewrite <- !app_assoc. split; [reflexivity|].
      split; [vm_compute; lia|]. by intros l' [= <-].
    + eexists. rewrite <- !app_assoc. split; [reflexivity|].
      split; [vm_compute; lia|]. by intros l' [= <-].
Qed.

Lemma poll_notice_once (w : World) (vclusterName podName namespace : string)
    n l s :
  exists evs,
    trace (poll n (getKubeConfigCondition w vclusterName podName namespace) l s).2
      = trace s ++ evs /\
    (count (isLog msgWaiting) evs <= if l.2 then 0 else 1)%nat.
Proof.
  revert l s. induction n as [|n IH]; intros l s;
    destruct (getKubeConfigCondition_notice w vclusterName podName namespace l s)
      as (evs & Ht & Hc & Hl); simpl; unfold bind;
    destruct (getKubeConfigCondition w vclusterName podName namespace l s)
      as [[[[] l']|e] s1]; simpl in *; try by exists evs.
  specialize (Hl l' eq_refl).
  destruct (IH l' s1) as (evs' & Ht' & Hc'). rewrite Hl in Hc'.
  exists (evs ++ evs'). rewrite Ht', Ht, <- app_assoc. split; [done|].
  rewrite count_app. lia.
Qed.

(** C7, as the code has it. In an iteration in which the secret cannot
    be read and the command in the pod fails, the condition says "not done"
    without an error, so the poll goes on to its next check while ticks
    remain; the notice of waiting is printed in that iteration only if it
    was not printed before, and in a whole run of [GetKubeConfig] it is
    printed at most once.  (An output of the command that does not parse is
    another matter: see [getKubeConfigCondition_unparsable].) *)
Theorem C7_waiting_keeps_polling (w : World)
    (vclusterName podName namespace : string)
    (l : option api.Config * bool) (s : St) :
  failed (ReadKubeConfig w (count isReadKubeConfig (trace s))
            vclusterName namespace) = true ->
  failed (ExecBuffered w (count isExec (trace s)) namespace podName "syncer"
            catKubeConfig) = true ->
  let condition := getKubeConfigCondition w vclusterName podName namespace in
  let s' := {| cmd := cmd s;
               trace := trace s ++
                 [EvReadKubeConfig vclusterName namespace;
                  EvExec namespace podName "syncer" catKubeConfig] ++
                 (if l.2 then [] else [EvLog LInfo msgWaiting]) |} in
  condition l s = (Ok (false, (None, true)), s') /\
  (forall n, poll (S n) condition l s = poll n condition (None, true) s') /\
  (forall s0, exists evs,
     trace (GetKubeConfig w vclusterName podName namespace s0).2 = trace s0 ++ evs /\
     (count (isLog msgWaiting) evs <= 1)%nat).
Proof.
  intros Hread Hexec condition s'.
  assert (Hc : condition l s = (Ok (false, (None, true)), s')).
  { apply getKubeConfigCondition_waiting; unfold readAt, execAt;
      by rewrite Nat.add_0_r. }
  split; [done|]. split.
  - intros n. simpl. unfold bind. fold condition. by rewrite Hc.
  - intros s0.
    destruct (poll_notice_once w vclusterName podName namespace (ticks w 2 600)
      (None, false) s0) as (evs & Ht & Hn).
    exists evs. split; [|done].
    unfold GetKubeConfig, bind, wrapErr.
    by destruct (poll _ _ _ s0) as [[l0|e] s1].
Qed.

(** ** Deadlines *)

Lemma exhausted_poll {L} n (condition : L -> M (bool * L)) l s :
  exhausted n condition l s = true ->
  exists s', poll n condition l s = (Err ErrWaitTimeout, s').
Proof.
  revert l s. induction n as [|n IH]; intros l s; simpl; unfold bind;
    destruct (condition l s) as [[[[] l']|e] s1]; try done; simpl.
  - intros _. by eexists.
  - apply IH.
Qed.

(** C8, as the code has it. When the deadline of the poll of a stage
    elapses, [Connect] returns [wait.ErrWaitTimeout] wrapped in the message
    of the stage ("finding vcluster pod"; "wait for vcluster", and for the
    fetch "failed to parse kube config" around it); the three errors differ,
    so the error tells the stage. *)
Theorem C8_deadline_error (w : World) (vclusterName : string) (stage : Stage)
    (s : St) :
  timesOut w vclusterName stage s = true ->
  (Connect w vclusterName s).1 = Err (stageError stage) /\
  Cause (stageError stage) = ErrWaitTimeout /\
  (forall stage', Error (stageError stage') = Error (stageError stage) ->
                  stage' = stage).
Proof.
  intros Hto. split; [|split; [by destruct stage|]].
  2:{ intros stage'. by destruct stage, stage'. }
  destruct stage; simpl in Hto.
  - unfold Connect, Connect_fetch, bind.
    destruct (Connect_setup w vclusterName s) as [[[]|e] s0]; [|done].
    apply andb_prop in Hto as [Hpod Hex].
    apply exhausted_poll in Hex as [s' Hp].
    unfold findPod. run. rewrite Hpod. by rewrite Hp.
  - unfold Connect, Connect_fetch, bind in *.
    destruct (Connect_setup w vclusterName s) as [[[]|e] s0]; [|done].
    destruct (findPod w vclusterName s0) as [[podName|e] s1]; [|done].
    apply exhausted_poll in Hto as [s' Hp].
    unfold GetKubeConfig. run. by rewrite Hp.
  - unfold Connect, bind.
    destruct (Connect_fetch w vclusterName s) as [[[podName kubeConfig]|e] s2];
      [|done].
    apply andb_prop in Hto as [[[Hsize Hname]%andb_prop Hsrv]%andb_prop Hex].
    apply exhausted_poll in Hex as [s' Hp].
    unfold Connect_fetched. simpl. rewrite Hsize. simpl.
    unfold checkExposed. run. rewrite Hname, Hsrv. simpl. by rewrite Hp.
Qed.

(** ** The example runs *)

(** [https://10.0.0.5:6443] with the local port 8443. *)
Lemma C1_witness :
  rewriteServer Demo.config (Demo.start Demo.flags) =
    (Ok (api.setClusters Demo.config
           {[ "demo" := api.setServer Demo.cluster "https://10.0.0.5:8443" ]},
         "6443"),
     Demo.start Demo.flags).
Proof.
  destruct (C1_tunnel_rewrites_port Demo.plain "demo" "demo-0" Demo.config
    "demo" Demo.cluster "https" "10.0.0.5" "6443" (Demo.start Demo.flags)
    eq_refl eq_refl eq_refl eq_refl eq_refl eq_refl) as [Hrewrite _].
  exact Hrewrite.
Defined.

Lemma C2_witness :
  Connect Demo.malformed "demo" (Demo.start Demo.flags) =
    (Err errUnexpectedKubeConfig,
     (Connect_fetch Demo.malformed "demo" (Demo.start Demo.flags)).2).
Proof.
  refine (proj1 (C2_not_one_cluster Demo.malformed "demo" "demo-0"
    Demo.twoClusters (Demo.start Demo.flags) _ _ _)).
  - vm_compute. reflexivity.
  - vm_compute. lia.
Defined.

Lemma C3_witness :
  (findPodCondition Demo.terminating "demo" "" (Demo.start Demo.flags)).1
  = Ok (false, "").
Proof.
  refine (proj2 (C3_newest_or_none Demo.terminating "demo" ""
    (Demo.start Demo.flags) [Demo.oldPod; Demo.newPod] eq_refl _)
    Demo.newPod _ _ _).
  - discriminate.
  - right. left.
  - discriminate.
  - constructor; [left; reflexivity|].
    constructor; [right; discriminate|]. constructor.
Defined.

Lemma C4_witness :
  exists s' evs,
    GetKubeConfig Demo.legacy "demo" "demo-0" "default" (Demo.start Demo.flags)
      = (Ok (Some Demo.config), s') /\
    trace s' = evs /\
    count (isLog msgFallback) evs = 1%nat /\
    count isReadKubeConfig evs = 3%nat.
Proof.
  refine (C4_fallback_notice_once Demo.legacy "demo" "demo-0" "default" 2
    Demo.config "apiVersion: v1" (Demo.start Demo.flags) _ _ _ eq_refl eq_refl).
  - vm_compute. lia.
  - intros i _. reflexivity.
  - intros [|[|i]] Hi; [reflexivity | reflexivity | lia].
Defined.

Lemma C5_witness :
  checkExposed Demo.plain "demo" (Demo.start Demo.flags) =
    (Ok tt, {| cmd := Demo.flags; trace := [EvGetService "default" "demo"] |}).
Proof.
  refine (proj1 (proj2 (C5_no_endpoint_first_poll Demo.plain "demo"
    (Demo.start Demo.flags) _ eq_refl eq_refl))).
  discriminate.
Defined.

Lemma C6_witness :
  rewriteServer Demo.config (Demo.start (setServer Demo.flags "34.1.1.1")) =
    (Ok (api.setClusters Demo.config
           {[ "demo" := api.setServer Demo.cluster "https://34.1.1.1" ]}, ""),
     Demo.start (setServer Demo.flags "https://34.1.1.1")).
Proof.
  refine (proj1 (C6_direct_endpoint Demo.plain "demo" "demo-0" Demo.config
    "demo" Demo.cluster (Demo.start (setServer Demo.flags "34.1.1.1")) _ eq_refl)).
  discriminate.
Defined.

Lemma C7_witness :
  getKubeConfigCondition Demo.stuck "demo" "demo-0" "default" (None, false)
    (Demo.start Demo.flags) =
  (Ok (false, (None, true)),
   {| cmd := Demo.flags;
      trace := [EvReadKubeConfig "demo" "default";
                EvExec "default" "demo-0" "syncer" catKubeConfig;
                EvLog LInfo msgWaiting] |}).
Proof.
  exact (proj1 (C7_waiting_keeps_polling Demo.stuck "demo" "demo-0" "default"
    (None, false) (Demo.start Demo.flags) eq_refl eq_refl)).
Defined.

Lemma C8_witness :
  (Connect Demo.stuck "demo" (Demo.start Demo.flags)).1 =
    Err (Wrap (Wrap ErrWaitTimeout "wait for vcluster") "failed to parse kube config").
Proof.
  refine (proj1 (C8_deadline_error Demo.stuck "demo" Fetching
    (Demo.start Demo.flags) _)).
  vm_compute. reflexivity.
Defined.

Lemma C9_witness :
  exists e,
    (Connect Demo.plain "" (Demo.start Demo.flags)).1 = Err e /\
    trace (Connect Demo.plain "" (Demo.start Demo.flags)).2 = [] /\
    e = errNoTarget.
Proof.
  destruct (C9_neither_name_nor_pod Demo.plain (Demo.start Demo.flags) eq_refl)
    as (e & Hres & Htrace & Herr).
  exists e. split; [exact Hres|]. split; [exact Htrace|].
  apply Herr; [reflexivity | reflexivity | left; discriminate].
Defined.

Lemma C10_witness :
  Server (cmd (Connect Demo.plain ""
                 (Demo.start (Demo.withPod Demo.flags "demo-0"))).2) = "".
Proof.
  exact (proj1 (proj2 (C10_pod_only_skips_discovery Demo.plain
    (Demo.start (Demo.withPod Demo.flags "demo-0"))) eq_refl)).
Defined.

(** The run of [Demo.garbled]: the secret cannot be read and the output
    of the command is no kube config; the condition returns an error and
    [GetKubeConfig] ends after one iteration, with five ticks left. *)
Lemma garbled_run :
  let s := Demo.start Demo.flags in
  failed (readAt Demo.garbled "demo" "default" s 0) = true /\
  noDocument Demo.garbled (execAt Demo.garbled "demo-0" "default" s 0) = true /\
  ticks Demo.garbled 2 600 = 5%nat /\
  (getKubeConfigCondition Demo.garbled "demo" "demo-0" "default" (None, false) s).1
    = Err (Errorf
        "failed to parse kube config: yaml: did not find expected node content") /\
  (GetKubeConfig Demo.garbled "demo" "demo-0" "default" s).1
    = Err (Wrap (Errorf
        "failed to parse kube config: yaml: did not find expected node content")
        "wait for vcluster") /\
  count isReadKubeConfig
    (trace (GetKubeConfig Demo.garbled "demo" "demo-0" "default" s).2) = 1%nat.
Proof. vm_compute. repeat split. Qed.

(** C7 as stated: whenever neither way gives a kube config (the secret
    cannot be read, and the command fails or its output does not parse), the
    condition says "not done" and the poll goes on.  It fails on
    [Demo.garbled]. *)
Lemma C7_counterexample :
  ~ (forall (w : World) (vclusterName podName namespace : string)
       (l : option api.Config * bool) (s : St),
       failed (readAt w vclusterName namespace s 0) = true ->
       noDocument w (execAt w podName namespace s 0) = true ->
       exists l',
         (getKubeConfigCondition w vclusterName podName namespace l s).1
           = Ok (false, l')).
Proof.
  intros Hclaim.
  destruct garbled_run as (Hread & Hexec & _ & Hcond & _).
  destruct (Hclaim Demo.garbled "demo" "demo-0" "default" (None, false)
    (Demo.start Demo.flags) Hread Hexec) as [l' Hl].
  rewrite Hcond in Hl. discriminate.
Qed.

(** The run of [Demo.stuck]: every read of the secret and every run of the
    command fails, to the deadline; the error [Connect] returns has
    [ErrWaitTimeout] as its cause and none of the errors seen. *)
Lemma stuck_run :
  let s := Demo.start (Demo.withPod Demo.flags "demo-0") in
  timesOut Demo.stuck "demo" Fetching s = true /\
  (Connect Demo.stuck "demo" s).1 = Err (stageError Fetching) /\
  wraps (stageError Fetching) (StatusNotFound "secrets vc-demo") = false /\
  wraps (stageError Fetching) (Other "container not found (syncer)") = false.
Proof. vm_compute. repeat split. Qed.

(** C8 as stated: when the deadline of the fetch elapses and every run of
    the command in the pod failed with [e], the last error seen, the error
    [Connect] returns wraps [e].  It fails on [Demo.stuck]. *)
Lemma C8_counterexample :
  ~ (forall (w : World) (vclusterName : string) (s : St) (e : error),
       timesOut w vclusterName Fetching s = true ->
       (forall i namespace podName,
          ExecBuffered w i namespace podName "syncer" catKubeConfig = Err e) ->
       exists err,
         (Connect w vclusterName s).1 = Err err /\ wraps err e = true).
Proof.
  intros Hclaim.
  destruct stuck_run as (Hto & Hres & _ & Hwraps).
  destruct (Hclaim Demo.stuck "demo"
    (Demo.start (Demo.withPod Demo.flags "demo-0"))
    (Other "container not found (syncer)") Hto (fun _ _ _ => eq_refl))
    as (err & Herr & Hw).
  rewrite Hres in Herr. assert (err = stageError Fetching) as -> by congruence.
  congruence.
Qed.

(** The whole of [Connect] on [Demo.plain]: the pod is found, the secret
    read, no service exposes the vcluster, the kube config is written to
    the file and the port 8443 is forwarded to the port 6443 of the pod. *)
Example plain_run :
  Connect Demo.plain "demo" (Demo.start Demo.flags) =
    (Ok tt,
     {| cmd := Demo.flags;
        trace :=
          [EvListPods "default" "app=vcluster,release=demo";
           EvReadKubeConfig "demo" "default";
           EvGetService "default" "demo";
           EvWriteFile "./kubeconfig.yaml" "kubeconfig";
           EvLog LDone
             ("Virtual cluster kube config written to: ./kubeconfig.yaml. " +:+
              "You can access the cluster via " +:+
              "`kubectl --kubeconfig ./kubeconfig.yaml get namespaces`");
           EvPortForward "" "demo-0" "default" "8443" "6443"] |}).
Proof. vm_compute. reflexivity. Qed.

(** * More of connect.go *)

(** ** Polls *)

Lemma poll_done_first {L} n (condition : L -> M (bool * L)) l s l' s' :
  condition l s = (Ok (true, l'), s') -> poll n condition l s = (Ok l', s').
Proof. intros Hc. destruct n; simpl; unfold bind; by rewrite Hc. Qed.

Lemma poll_error_first {L} n (condition : L -> M (bool * L)) l s e s' :
  condition l s = (Err e, s') -> poll n condition l s = (Err e, s').
Proof. intros Hc. destruct n; simpl; unfold bind; by rewrite Hc. Qed.

Lemma poll_continue {L} n (condition : L -> M (bool * L)) l s l' s' :
  condition l s = (Ok (false, l'), s') ->
  poll (S n) condition l s = poll n condition l' s'.
Proof. intros Hc. simpl. unfold bind. by rewrite Hc. Qed.

(** A poll that succeeds ends on a check that says "done", made in a
    state that keeps whatever the checks keep. *)
Lemma poll_Ok_inv {L} (I : St -> Prop) n (condition : L -> M (bool * L)) l s l' s' :
  (forall l0 s0, I s0 -> I (condition l0 s0).2) ->
  I s ->
  poll n condition l s = (Ok l', s') ->
  exists l0 s0, I s0 /\ condition l0 s0 = (Ok (true, l'), s').
Proof.
  intros HI. revert l s. induction n as [|n IH]; intros l s Hs; simpl;
    unfold bind; pose proof (HI l s Hs) as Hs1;
    destruct (condition l s) as [[[[] l1]|e] s1] eqn:Hc; simpl in *;
    intros Hp; try done.
  - exists l, s. unfold ret in Hp. by simplify_eq.
  - exists l, s. unfold ret in Hp. by simplify_eq.
  - by apply (IH l1 s1).
Qed.

(** ** Finding the pod *)

Lemma findPodCondition_keeps (w : World) name pod : keeps (findPodCondition w name pod).
Proof. unfold findPodCondition. keeps_tac. Qed.

(** X2. An error of the pod listing is not retried: the stage ends on the
    first listing with the error wrapped in "finding vcluster pod", however
    many ticks are left. *)
Theorem findPod_list_error_fatal (w : World) (vclusterName : string) (s : St)
    (e : error) :
  PodName (cmd s) = "" ->
  podsAt w vclusterName s 0 = Err e ->
  findPod w vclusterName s =
    (Err (Wrap e "finding vcluster pod"),
     {| cmd := cmd s;
        trace := trace s ++
          [EvListPods (Namespace (cmd s)) ("app=vcluster,release=" +:+ vclusterName)] |}).
Proof.
  unfold podsAt. rewrite Nat.add_0_r. intros Hpod Hlist.
  unfold findPod. run. rewrite Hpod. simpl.
  erewrite poll_error_first; [reflexivity|].
  unfold findPodCondition. run. by rewrite Hlist.
Qed.

(** X3. The pod the resolver returns was in one of the listings, with
    no deletion timestamp and no pod of that listing created after it. *)
Theorem findPod_returns_live_newest (w : World) (vclusterName podName : string)
    (s s' : St) :
  PodName (cmd s) = "" ->
  findPod w vclusterName s = (Ok podName, s') ->
  exists i pods p,
    ListPods w i (Namespace (cmd s)) ("app=vcluster,release=" +:+ vclusterName)
      = Ok pods /\
    p ∈ pods /\ corev1.Name p = podName /\
    corev1.DeletionTimestamp p = None /\
    Forall (fun q => (corev1.CreationTimestamp q <= corev1.CreationTimestamp p)%Z) pods.
Proof.
  intros Hpod. unfold findPod. run. rewrite Hpod. simpl.
  destruct (poll _ _ _ s) as [[l|e] s1] eqn:Hp; [|done].
  intros [= -> ->].
  apply (poll_Ok_inv (fun s0 => cmd s0 = cmd s)) in Hp as (l0 & s0 & Hs0 & Hc);
    [| |done].
  2:{ intros l1 s1 Hs1. by rewrite findPodCondition_keeps. }
  destruct (ListPods w (count isListPods (trace s0)) (Namespace (cmd s0))
    ("app=vcluster,release=" +:+ vclusterName)) as [pods|e] eqn:Hlist.
  2:{ unfold findPodCondition in Hc. run. by rewrite Hlist in Hc. }
  destruct pods as [|p0 pods].
  { unfold findPodCondition in Hc. run. by rewrite Hlist in Hc. }
  destruct (findPodCondition_top w vclusterName l0 s0 (p0 :: pods) Hlist
    ltac:(done)) as (top & Hin & Hmax & Hres).
  rewrite Hc in Hres. simpl in Hres.
  exists (count isListPods (trace s0)), (p0 :: pods), top.
  rewrite <- Hs0. split; [done|]. split; [done|].
  destruct (corev1.DeletionTimestamp top); by simplify_eq.
Qed.

(** ** Fetching the kube config: the secret *)

Lemma getKubeConfigCondition_secret (w : World)
    (vclusterName podName namespace : string) l s kubeConfig :
  readAt w vclusterName namespace s 0 = Ok kubeConfig ->
  getKubeConfigCondition w vclusterName podName namespace l s =
    (Ok (true, (Some kubeConfig, l.2)),
     {| cmd := cmd s;
        trace := trace s ++ [EvReadKubeConfig vclusterName namespace] |}).
Proof.
  unfold readAt. rewrite Nat.add_0_r. intros Hread.
  unfold getKubeConfigCondition. run. by rewrite Hread.
Qed.

Lemma poll_secret (w : World) (vclusterName podName namespace : string)
    (k : nat) kubeConfig :
  forall n l s,
  (k <= n)%nat ->
  (forall i, (i < k)%nat -> failed (readAt w vclusterName namespace s i) = true) ->
  (forall i, (i < k)%nat -> failed (execAt w podName namespace s i) = true) ->
  readAt w vclusterName namespace s k = Ok kubeConfig ->
  exists printedWaiting s' evs,
    poll n (getKubeConfigCondition w vclusterName podName namespace) l s
      = (Ok (Some kubeConfig, printedWaiting), s') /\
    trace s' = trace s ++ evs /\
    count isReadKubeConfig evs = S k /\
    count isExec evs = k /\
    count (isLog msgFallback) evs = 0%nat.
Proof.
  induction k as [|k IH]; intros n l s Hkn Hread Hexec Hok.
  - assert (Hc := getKubeConfigCondition_secret w vclusterName podName namespace
      l s kubeConfig Hok).
    eexists _, _, _. split; [by apply poll_done_first|].
    simpl. split; [reflexivity|]. by repeat split.
  - destruct n as [|n]; [lia|].
    assert (Hc := getKubeConfigCondition_waiting w vclusterName podName namespace
      l s (Hread 0%nat (Nat.lt_0_succ _)) (Hexec 0%nat (Nat.lt_0_succ _))).
    set (s1 := (getKubeConfigCondition w vclusterName podName namespace l s).2).
    assert (Hs1 : trace s1 = trace s ++
       [EvReadKubeConfig vclusterName namespace;
        EvExec namespace podName "syncer" catKubeConfig] ++
       (if l.2 then [] else [EvLog LInfo msgWaiting])).
    { subst s1. by rewrite Hc. }
    assert (Hr : forall i, (count isReadKubeConfig (trace s1) + i
                           = count isReadKubeConfig (trace s) + S i)%nat).
    { intros i. rewrite Hs1, count_app. destruct l.2; simpl;
        change (count isReadKubeConfig _) with 1%nat at 2; lia. }
    assert (He : forall i, (count isExec (trace s1) + i
                           = count isExec (trace s) + S i)%nat).
    { intros i. rewrite Hs1, count_app. destruct l.2; simpl;
        change (count isExec _) with 1%nat at 2; lia. }
    destruct (IH n (None, true) s1) as (pw & s' & evs & Hp & Ht & Hn & Hx & Hf).
    + lia.
    + intros i Hi. unfold readAt. rewrite Hr. apply Hread. lia.
    + intros i Hi. unfold execAt. rewrite He. apply Hexec. lia.
    + unfold readAt. by rewrite Hr.
    + exists pw, s'.
      exists (([EvReadKubeConfig vclusterName namespace;
                EvExec namespace podName "syncer" catKubeConfig] ++
               (if l.2 then [] else [EvLog LInfo msgWaiting])) ++ evs).
      split; [|split; [|split; [|split]]].
      * erewrite poll_continue; [|exact Hc]. subst s1. by rewrite Hc in Hp.
      * rewrite Ht, Hs1. by rewrite <- !app_assoc.
      * rewrite count_app, Hn. by destruct l.2.
      * rewrite count_app, Hx. by destruct l.2.
      * rewrite count_app, Hf. by destruct l.2.
Qed.

(** X4. The secret appears after [N] iterations in which neither the
    secret nor the command in the pod gave anything: [GetKubeConfig]
    returns the kube config of the secret after [N + 1] reads of the secret
    and [N] runs of the command, and the notice of the fallback is not
    printed. *)
Theorem GetKubeConfig_secret_after_waiting (w : World)
    (vclusterName podName namespace : string) (N : nat)
    (kubeConfig : api.Config) (s : St) :
  (N <= ticks w 2 600)%nat ->
  (forall i, (i < N)%nat -> failed (readAt w vclusterName namespace s i) = true) ->
  (forall i, (i < N)%nat -> failed (execAt w podName namespace s i) = true) ->
  readAt w vclusterName namespace s N = Ok kubeConfig ->
  exists s' evs,
    GetKubeConfig w vclusterName podName namespace s = (Ok (Some kubeConfig), s') /\
    trace s' = trace s ++ evs /\
    count isReadKubeConfig evs = S N /\
    count isExec evs = N /\
    count (isLog msgFallback) evs = 0%nat.
Proof.
  intros HN Hread Hexec Hok.
  destruct (poll_secret w vclusterName podName namespace N kubeConfig
    (ticks w 2 600) (None, false) s HN Hread Hexec Hok)
    as (pw & s' & evs & Hp & Hrest).
  exists s', evs. split; [|done].
  unfold GetKubeConfig, bind, wrapErr. by rewrite Hp.
Qed.

(** X5. What [GetKubeConfig] returns without an error is never nil: it
    is a kube config that a read of the secret returned, or the parse of an
    output of the command in the pod. *)
Theorem GetKubeConfig_Ok_not_nil (w : World)
    (vclusterName podName namespace : string) (s s' : St)
    (p : option api.Config) :
  GetKubeConfig w vclusterName podName namespace s = (Ok p, s') ->
  exists kubeConfig,
    p = Some kubeConfig /\
    ((exists i, ReadKubeConfig w i vclusterName namespace = Ok kubeConfig) \/
     (exists i stdout,
        ExecBuffered w i namespace podName "syncer" catKubeConfig = Ok stdout /\
        Load w stdout = Ok kubeConfig)).
Proof.
  unfold GetKubeConfig, bind, wrapErr.
  destruct (poll _ _ _ s) as [[l|e] s1] eqn:Hp; [|done].
  unfold ret. intros [= <- <-].
  apply (poll_Ok_inv (fun _ => True)) in Hp as (l0 & s0 & _ & Hc); [|done..].
  unfold getKubeConfigCondition in Hc. run.
  destruct (ReadKubeConfig w _ _ _) as [kc|e1] eqn:Hread; simpl in Hc.
  { injection Hc as <- _. exists kc. split; [done|]. left. by eexists. }
  destruct (ExecBuffered w _ _ _ _ _) as [stdout|e2] eqn:Hexec; simpl in Hc.
  - destruct (Load w stdout) as [kc|e3] eqn:Hload; simpl in Hc; [|done].
    injection Hc as <- _. exists kc. split; [done|]. right. by eexists _, _.
  - by destruct l0.2.
Qed.

(** ** Looking for the load balancer *)

Lemma checkExposed_polls (w : World) (vclusterName : string) (s : St) :
  vclusterName <> "" ->
  Server (cmd s) = "" ->
  checkExposed w vclusterName s =
    (wrapErr (poll (ticks w 2 300) (exposedCondition w vclusterName) false)
       "wait for vcluster" ;;; ret tt) s.
Proof.
  intros Hname Hsrv. unfold checkExposed. run. rewrite Hsrv. simpl.
  apply String.eqb_neq in Hname. by rewrite Hname.
Qed.

(** X6. An error of the service read other than "not found" is not
    retried: the stage ends on the first read with the error wrapped in
    "wait for vcluster", and [cmd.Server] stays empty. *)
Theorem checkExposed_api_error_fatal (w : World) (vclusterName : string)
    (s : St) (e : error) :
  vclusterName <> "" ->
  Server (cmd s) = "" ->
  serviceAt w vclusterName s 0 = Err e ->
  IsNotFound e = false ->
  checkExposed w vclusterName s =
    (Err (Wrap e "wait for vcluster"),
     {| cmd := cmd s;
        trace := trace s ++ [EvGetService (Namespace (cmd s)) vclusterName] |}).
Proof.
  unfold serviceAt. rewrite Nat.add_0_r. intros Hname Hsrv Hget Hnf.
  rewrite checkExposed_polls by done. run.
  erewrite poll_error_first; [reflexivity|].
  unfold exposedCondition. run. by rewrite Hget, Hnf.
Qed.

Lemma exposedCondition_notReady (w : World) (vclusterName : string)
    (printedWaiting : bool) (s : St) :
  Server (cmd s) = "" ->
  notReady (serviceAt w vclusterName s 0) = true ->
  exists printedWaiting' evs,
    exposedCondition w vclusterName printedWaiting s =
      (Ok (false, printedWaiting'),
       {| cmd := cmd s;
          trace := trace s ++ EvGetService (Namespace (cmd s)) vclusterName :: evs |}) /\
    count isGetService evs = 0%nat.
Proof.
  unfold serviceAt, notReady. rewrite Nat.add_0_r. intros Hsrv Hnr.
  unfold exposedCondition. run.
  destruct (GetService w _ _ _) as [service|e]; [|done]. simpl.
  apply andb_prop in Hnr as [Hlb Hing]. rewrite Hlb. simpl.
  destruct (corev1.Ingress service) as [|ingress ?].
  - destruct printedWaiting; simpl.
    + by exists true, [].
    + exists true, [EvLog LInfo msgWaitingLB]. by rewrite <- !app_assoc.
  - unfold endpointOf in Hing.
    destruct (String.eqb (corev1.Hostname ingress) "") eqn:Hh; simpl.
    + rewrite Hing. simpl. rewrite Hsrv. simpl.
      exists printedWaiting, []. split; [|done]. by destruct s.
    + apply String.eqb_eq in Hing. rewrite Hing in Hh. done.
Qed.

Lemma exposedCondition_ready (w : World) (vclusterName server : string)
    (printedWaiting : bool) (s : St) :
  Server (cmd s) = "" ->
  readyAt server (serviceAt w vclusterName s 0) = true ->
  exposedCondition w vclusterName printedWaiting s =
    (Ok (true, printedWaiting),
     {| cmd := setServer (cmd s) server;
        trace := trace s ++
          [EvGetService (Namespace (cmd s)) vclusterName;
           EvLog LInfo ("Using vcluster " +:+ vclusterName +:+
                        " load balancer endpoint: " +:+ server)] |}).
Proof.
  unfold serviceAt, readyAt. rewrite Nat.add_0_r. intros Hsrv Hr.
  unfold exposedCondition. run.
  destruct (GetService w _ _ _) as [service|e]; [|done]. simpl.
  apply andb_prop in Hr as [Hlb Hing]. rewrite Hlb. simpl.
  destruct (corev1.Ingress service) as [|ingress ?]; [done|].
  apply andb_prop in Hing as [Hep Hne]. apply String.eqb_eq in Hep.
  apply negb_true_iff in Hne. unfold endpointOf in Hep.
  destruct (String.eqb (corev1.Hostname ingress) "") eqn:Hh; simpl.
  - rewrite Hep, Hne. simpl. rewrite Hne. simpl. by rewrite <- !app_assoc.
  - rewrite Hep, Hne. simpl. by rewrite <- !app_assoc.
Qed.

Lemma poll_exposed (w : World) (vclusterName server : string) (k : nat) :
  forall n printedWaiting s,
  (k <= n)%nat ->
  Server (cmd s) = "" ->
  (forall i, (i < k)%nat -> notReady (serviceAt w vclusterName s i) = true) ->
  readyAt server (serviceAt w vclusterName s k) = true ->
  exists printedWaiting' s' evs,
    poll n (exposedCondition w vclusterName) printedWaiting s
      = (Ok printedWaiting', s') /\
    cmd s' = setServer (cmd s) server /\
    trace s' = trace s ++ evs /\
    count isGetService evs = S k.
Proof.
  induction k as [|k IH]; intros n pw s Hkn Hsrv Hnr Hr.
  - eexists _, _, _. split.
    { apply poll_done_first. by apply exposedCondition_ready. }
    simpl. split; [done|]. split; [reflexivity|done].
  - destruct n as [|n]; [lia|].
    destruct (exposedCondition_notReady w vclusterName pw s Hsrv
      (Hnr 0%nat (Nat.lt_0_succ _))) as (pw' & evs1 & Hc & Hn1).
    set (s1 := {| cmd := cmd s;
                  trace := trace s ++
                    EvGetService (Namespace (cmd s)) vclusterName :: evs1 |}) in *.
    assert (Hi : forall i, serviceAt w vclusterName s1 i
                           = serviceAt w vclusterName s (S i)).
    { intros i. unfold serviceAt. subst s1. simpl. rewrite count_app.
      change (EvGetService (Namespace (cmd s)) vclusterName :: evs1)
        with ([EvGetService (Namespace (cmd s)) vclusterName] ++ evs1).
      rewrite count_app, Hn1. f_equal.
      change (count isGetService [_]) with 1%nat. lia. }
    destruct (IH n pw' s1) as (pw'' & s' & evs & Hp & Hcmd & Ht & Hn).
    + lia.
    + done.
    + intros i Hlt. rewrite Hi. apply Hnr. lia.
    + by rewrite Hi.
    + exists pw'', s', ((EvGetService (Namespace (cmd s)) vclusterName :: evs1) ++ evs).
      split; [|split; [done|split]].
      * erewrite poll_continue; [|exact Hc]. exact Hp.
      * rewrite Ht. subst s1. simpl. by rewrite <- app_assoc.
      * rewrite count_app, Hn.
        change (EvGetService (Namespace (cmd s)) vclusterName :: evs1)
          with ([EvGetService (Namespace (cmd s)) vclusterName] ++ evs1).
        rewrite count_app, Hn1. reflexivity.
Qed.

(** X7. The load balancer has no address in the first [N] reads of the
    service and its first ingress entry gives one in the next read, within
    the deadline: the stage succeeds after [N + 1] reads and [cmd.Server]
    is that address, the hostname of the entry if it has one and else its
    IP; nothing else of the command changes. *)
Theorem checkExposed_discovers_endpoint (w : World) (vclusterName server : string)
    (N : nat) (s : St) :
  vclusterName <> "" ->
  Server (cmd s) = "" ->
  (N <= ticks w 2 300)%nat ->
  (forall i, (i < N)%nat -> notReady (serviceAt w vclusterName s i) = true) ->
  readyAt server (serviceAt w vclusterName s N) = true ->
  exists s' evs,
    checkExposed w vclusterName s = (Ok tt, s') /\
    cmd s' = setServer (cmd s) server /\
    trace s' = trace s ++ evs /\
    count isGetService evs = S N.
Proof.
  intros Hname Hsrv HN Hnr Hr.
  destruct (poll_exposed w vclusterName server N (ticks w 2 300) false s
    HN Hsrv Hnr Hr) as (pw & s' & evs & Hp & Hrest).
  exists s', evs. split; [|done].
  rewrite checkExposed_polls by done. run. by rewrite Hp.
Qed.

Lemma exposedCondition_notice (w : World) (vclusterName : string)
    (printedWaiting : bool) (s : St) :
  exists evs,
    trace (exposedCondition w vclusterName printedWaiting s).2 = trace s ++ evs /\
    (count (isLog msgWaitingLB) evs <= if printedWaiting then 0 else 1)%nat /\
    (forall printedWaiting',
       (exposedCondition w vclusterName printedWaiting s).1
         = Ok (false, printedWaiting') ->
       printedWaiting' = true \/
       (printedWaiting' = printedWaiting /\ count (isLog msgWaitingLB) evs = 0%nat)).
Proof.
  unfold exposedCondition. run.
  destruct (GetService w _ _ _) as [service|e]; simpl.
  2:{ exists [EvGetService (Namespace (cmd s)) vclusterName].
      split; [by destruct (IsNotFound e)|].
      split; [vm_compute; destruct printedWaiting; lia|].
      by destruct (IsNotFound e). }
  destruct (negb _); simpl.
  { exists [EvGetService (Namespace (cmd s)) vclusterName].
    split; [done|]. split; [vm_compute; destruct printedWaiting; lia|done]. }
  destruct (corev1.Ingress service) as [|ingress ?].
  - destruct printedWaiting; simpl.
    + eexists. rewrite <- ?app_assoc. split; [reflexivity|].
      split; [vm_compute; lia|]. intros ? [= <-]. by left.
    + eexists. rewrite <- ?app_assoc. split; [reflexivity|].
      split; [vm_compute; lia|]. intros ? [= <-]. by left.
  - destruct (negb (String.eqb (corev1.Hostname ingress) "")); simpl.
    + destruct (String.eqb (corev1.Hostname ingress) ""); simpl.
      * exists [EvGetService (Namespace (cmd s)) vclusterName].
        split; [done|]. split; [vm_compute; destruct printedWaiting; lia|].
        intros ? [= <-]. by right.
      * eexists. rewrite <- ?app_assoc. split; [reflexivity|].
        split; [vm_compute; destruct printedWaiting; lia|done].
    + destruct (negb (String.eqb (corev1.IP ingress) "")); simpl.
      * destruct (String.eqb (corev1.IP ingress) ""); simpl.
        -- exists [EvGetService (Namespace (cmd s)) vclusterName].
           split; [done|]. split; [vm_compute; destruct printedWaiting; lia|].
           intros ? [= <-]. by right.
        -- eexists. rewrite <- ?app_assoc. split; [reflexivity|].
           split; [vm_compute; destruct printedWaiting; lia|done].
      * destruct (String.eqb (Server (cmd s)) ""); simpl.
        -- exists [EvGetService (Namespace (cmd s)) vclusterName].
           split; [done|]. split; [vm_compute; destruct printedWaiting; lia|].
           intros ? [= <-]. by right.
        -- eexists. rewrite <- ?app_assoc. split; [reflexivity|].
           split; [vm_compute; destruct printedWaiting; lia|done].
Qed.

Lemma poll_exposed_notice (w : World) (vclusterName : string) n printedWaiting s :
  exists evs,
    trace (poll n (exposedCondition w vclusterName) printedWaiting s).2
      = trace s ++ evs /\
    (count (isLog msgWaitingLB) evs <= if printedWaiting then 0 else 1)%nat.
Proof.
  revert printedWaiting s. induction n as [|n IH]; intros pw s;
    destruct (exposedCondition_notice w vclusterName pw s)
      as (evs & Ht & Hc & Hl); simpl; unfold bind;
    destruct (exposedCondition w vclusterName pw s)
      as [[[[] pw']|e] s1]; simpl in *; try by exists evs.
  destruct (IH pw' s1) as (evs' & Ht' & Hc').
  exists (evs ++ evs'). rewrite Ht', Ht, <- app_assoc. split; [done|].
  rewrite count_app.
  destruct (Hl pw' eq_refl) as [->|[-> H0]]; [lia|]. rewrite H0. lia.
Qed.

(** X8. However long the load balancer takes and however the stage
    ends, "Waiting for vcluster LoadBalancer ip..." is printed at most once. *)
Theorem checkExposed_notice_once (w : World) (vclusterName : string) (s : St) :
  exists evs,
    trace (checkExposed w vclusterName s).2 = trace s ++ evs /\
    (count (isLog msgWaitingLB) evs <= 1)%nat.
Proof.
  unfold checkExposed. run.
  destruct (negb _ && _); simpl.
  - destruct (poll_exposed_notice w vclusterName (ticks w 2 300) false s)
      as (evs & Ht & Hn).
    exists evs. split; [|exact Hn].
    by destruct (poll _ _ _ s) as [[l|e] s1].
  - exists []. rewrite app_nil_r. split; [done|]. vm_compute. lia.
Qed.

(** ** Rewriting the server *)

Lemma Split_length (s : string) :
  length (strings.Split s ":") = S (countChar ":" s).
Proof.
  induction s as [|c s IH]; simpl; [done|].
  destruct (Ascii.eqb c ":"); simpl; [by rewrite IH|].
  destruct (strings.Split s ":") as [|seg segs]; [done|]. by rewrite <- IH.
Qed.

Lemma size_one_singleton {A} (m : gmap string A) :
  size m = 1%nat -> exists k x, m = {[ k := x ]}.
Proof.
  intros Hsize. unfold size, map_size in Hsize.
  rewrite map_fold_foldr in Hsize.
  assert (Hlen : length (map_to_list m) = 1%nat).
  { rewrite <- Hsize. clear Hsize. induction (map_to_list m) as [|[] l IH];
      simpl; [done|]. by rewrite IH. }
  destruct (map_to_list m) as [|[k x] [|? ?]] eqn:Hl; try done.
  exists k, x. rewrite <- (list_to_map_to_list m), Hl. simpl.
  by rewrite insert_empty.
Qed.

(** X10. In tunnel mode the one server of the kube config is accepted
    exactly when it holds two colons.  With any other number ([https://host]
    without a port, an IPv6 address) the rewriting returns "unexpected server
    in kubeconfig: <server>" and [Connect] ends there: nothing is written
    out and no port is forwarded. *)
Theorem rewriteServer_needs_two_colons (w : World) (vclusterName podName : string)
    (kubeConfig : api.Config) (k : string) (cl : api.Cluster) (s : St) :
  Server (cmd s) = "" ->
  api.Clusters kubeConfig = {[ k := cl ]} ->
  (countChar ":" (api.Server cl) = 2%nat ->
   exists r, rewriteServer kubeConfig s = (Ok r, s)) /\
  (countChar ":" (api.Server cl) <> 2%nat ->
   let e := Errorf ("unexpected server in kubeconfig: " +:+ api.Server cl) in
   rewriteServer kubeConfig s = (Err e, s) /\
   Connect_rewrite w vclusterName podName kubeConfig s = (Err e, s)).
Proof.
  intros Hsrv Hcl.
  assert (Hrun : rewriteServer kubeConfig s =
    (if (length (strings.Split (api.Server cl) ":") =? 3)%nat
     then Ok (api.setClusters kubeConfig
                (<[k := api.setServer cl
                     (strings.Join
                        (<[2%nat := strconv.Itoa (LocalPort (cmd s))]>
                           (strings.Split (api.Server cl) ":")) ":")]>
                   (api.Clusters kubeConfig)),
              strings.Split (api.Server cl) ":" !!! 2%nat)
     else Err (Errorf ("unexpected server in kubeconfig: " +:+ api.Server cl)),
     s)).
  { unfold rewriteServer. rewrite Hcl, map_to_list_singleton. simpl. run.
    rewrite Hsrv. simpl. rewrite Hcl, lookup_singleton_eq.
    by destruct (length _ =? 3)%nat. }
  rewrite Split_length in Hrun. split.
  - intros Htwo. rewrite Htwo in Hrun. simpl in Hrun. by eexists.
  - intros Hnot e.
    assert (Hne : (S (countChar ":" (api.Server cl)) =? 3)%nat = false)
      by (apply Nat.eqb_neq; lia).
    rewrite Hne in Hrun. split; [done|].
    unfold Connect_rewrite, bind. by rewrite Hrun.
Qed.

Lemma setServer_same (c : ConnectCmd) : setServer c (Server c) = c.
Proof. by destruct c. Qed.

Lemma withScheme_not_empty (server : string) : withScheme server <> "" <-> True.
Proof.
  split; [done|]. intros _. unfold withScheme.
  destruct (strings.HasPrefix server "https://") eqn:Hp; [|done].
  by destruct server.
Qed.

(** The rewriting in direct-endpoint mode, on a kube config of one cluster. *)
Lemma rewriteServer_direct (kubeConfig : api.Config) (k : string)
    (cl : api.Cluster) (s : St) :
  Server (cmd s) <> "" ->
  api.Clusters kubeConfig = {[ k := cl ]} ->
  rewriteServer kubeConfig s =
    (Ok (api.setClusters kubeConfig
           {[ k := api.setServer cl (withScheme (Server (cmd s))) ]}, ""),
     {| cmd := setServer (cmd s) (withScheme (Server (cmd s)));
        trace := trace s |}).
Proof.
  intros Hsrv Hcl. apply String.eqb_neq in Hsrv.
  unfold rewriteServer. rewrite Hcl, map_to_list_singleton. simpl. run.
  rewrite Hsrv. simpl. unfold withScheme.
  destruct (strings.HasPrefix (Server (cmd s)) "https://"); simpl;
    rewrite Hcl, alter_singleton_eq; [|done].
  rewrite setServer_same. by destruct s.
Qed.

Lemma Connect_rewrite_direct (w : World) (vclusterName podName : string)
    (kubeConfig : api.Config) (k : string) (cl : api.Cluster) (s : St) :
  Server (cmd s) <> "" ->
  api.Clusters kubeConfig = {[ k := cl ]} ->
  Connect_rewrite w vclusterName podName kubeConfig s =
    writeKubeConfig w vclusterName
      (api.setClusters kubeConfig
         {[ k := api.setServer cl (withScheme (Server (cmd s))) ]})
      {| cmd := setServer (cmd s) (withScheme (Server (cmd s)));
         trace := trace s |}.
Proof.
  intros Hsrv Hcl. unfold Connect_rewrite, bind.
  rewrite (rewriteServer_direct kubeConfig k cl s Hsrv Hcl). simpl.
  set (s0 := {| cmd := _; trace := _ |}).
  set (kc' := api.setClusters _ _).
  pose proof (writeKubeConfig_keeps w vclusterName kc' s0) as Hk.
  destruct (writeKubeConfig w vclusterName kc' s0) as [[[]|e] s1];
    simpl in *; [|done].
  apply forward_direct. rewrite Hk. subst s0. simpl.
  by apply withScheme_not_empty.
Qed.

(** ** A server that is given or discovered *)

Lemma checkExposed_skip (w : World) (vclusterName : string) (s : St) :
  vclusterName = "" \/ Server (cmd s) <> "" ->
  checkExposed w vclusterName s = (Ok tt, s).
Proof.
  intros Hskip. unfold checkExposed. run.
  destruct Hskip as [->|Hsrv]; [done|].
  apply String.eqb_neq in Hsrv. rewrite Hsrv. by rewrite andb_false_r.
Qed.

Lemma exposedCondition_emits (w : World) P vclusterName printedWaiting :
  (forall ns name, P (EvGetService ns name) = true) ->
  (forall lvl msg, P (EvLog lvl msg) = true) ->
  emits P (exposedCondition w vclusterName printedWaiting).
Proof.
  intros H1 H2. unfold exposedCondition.
  apply emits_bind; [auto with emits|intros c].
  apply emits_bind; [by apply emits_try, emits_call|intros r].
  destruct r as [service|e]; [|destruct (IsNotFound e); auto with emits].
  destruct (negb _); [auto with emits|].
  destruct (corev1.Ingress service) as [|ingress ?].
  - apply emits_bind; [by apply emits_when, emits_emit|intros ?].
    auto with emits.
  - apply emits_bind.
    { destruct (negb _); auto with emits. }
    intros ?. apply emits_bind; [auto with emits|intros c'].
    destruct (String.eqb _ _); [auto with emits|].
    apply emits_bind; [by apply emits_emit|intros ?]. auto with emits.
Qed.

Lemma checkExposed_emits (w : World) P vclusterName :
  (forall ns name, P (EvGetService ns name) = true) ->
  (forall lvl msg, P (EvLog lvl msg) = true) ->
  emits P (checkExposed w vclusterName).
Proof.
  intros H1 H2. unfold checkExposed.
  apply emits_bind; [auto with emits|intros c].
  destruct (_ && _); [|auto with emits].
  apply emits_bind; [|auto with emits].
  apply emits_wrapErr, emits_poll. intros l. by apply exposedCondition_emits.
Qed.

(** X9. With a server given ([--server]), [Connect] never reads the
    service and never starts a port forwarding; when it returns nil,
    [cmd.Server] is the given address with [https://] in front unless it was
    there. *)
Theorem Connect_explicit_server (w : World) (vclusterName : string) (s : St) :
  Server (cmd s) <> "" ->
  (exists evs,
     trace (Connect w vclusterName s).2 = trace s ++ evs /\
     forallb (fun e => negb (isGetService e) && negb (isPortForward e)) evs = true) /\
  ((Connect w vclusterName s).1 = Ok tt ->
   Server (cmd (Connect w vclusterName s).2) = withScheme (Server (cmd s))).
Proof.
  intros Hsrv. unfold Connect, bind.
  pose proof (Connect_fetch_server w vclusterName s) as Hfs.
  destruct (Connect_fetch_emits w
    (fun e => negb (isGetService e) && negb (isPortForward e)) vclusterName
    ltac:(done) ltac:(done) ltac:(done) ltac:(done) s) as (evs1 & Ht1 & Hp1).
  destruct (Connect_fetch w vclusterName s) as [[[podName kubeConfig]|e] s1];
    simpl in *.
  2:{ split; [by exists evs1|done]. }
  unfold Connect_fetched.
  destruct (size (api.Clusters kubeConfig) =? 1)%nat eqn:Hsize; simpl.
  2:{ split; [by exists evs1|done]. }
  apply Nat.eqb_eq, size_one_singleton in Hsize as (k & cl & Hcl).
  assert (Hsrv1 : Server (cmd s1) <> "") by by rewrite Hfs.
  unfold bind. rewrite checkExposed_skip by by right.
  rewrite (Connect_rewrite_direct w vclusterName podName kubeConfig k cl s1 Hsrv1 Hcl).
  set (s0 := {| cmd := _; trace := _ |}).
  set (kc' := api.setClusters _ _).
  pose proof (writeKubeConfig_keeps w vclusterName kc' s0) as Hk.
  destruct (writeKubeConfig_emits w
    (fun e => negb (isGetService e) && negb (isPortForward e)) vclusterName kc'
    ltac:(done) ltac:(done) ltac:(done) ltac:(done) s0) as (evs2 & Ht2 & Hp2).
  split.
  - exists (evs1 ++ evs2). rewrite Ht2. subst s0. simpl.
    rewrite Ht1, <- app_assoc. split; [done|].
    by rewrite forallb_app, Hp1, Hp2.
  - intros _. rewrite Hk. subst s0. simpl. by rewrite Hfs.
Qed.

(** X16. The load balancer gives an address within the deadline: the
    rest of [Connect] stores the address, with [https://] in front unless it
    is there, as the server of the one cluster and ends with the writing
    out of that kube config; no port is forwarded. *)
Theorem Connect_fetched_discovered_endpoint (w : World)
    (vclusterName podName server : string) (kubeConfig : api.Config)
    (k : string) (cl : api.Cluster) (N : nat) (s : St) :
  vclusterName <> "" ->
  Server (cmd s) = "" ->
  api.Clusters kubeConfig = {[ k := cl ]} ->
  (N <= ticks w 2 300)%nat ->
  (forall i, (i < N)%nat -> notReady (serviceAt w vclusterName s i) = true) ->
  readyAt server (serviceAt w vclusterName s N) = true ->
  exists s',
    cmd s' = setServer (cmd s) (withScheme server) /\
    Connect_fetched w vclusterName podName kubeConfig s =
      writeKubeConfig w vclusterName
        (api.setClusters kubeConfig
           {[ k := api.setServer cl (withScheme server) ]}) s' /\
    exists evs,
      trace (Connect_fetched w vclusterName podName kubeConfig s).2
        = trace s ++ evs /\
      forallb (fun e => negb (isPortForward e)) evs = true.
Proof.
  intros Hname Hsrv Hcl HN Hnr Hr.
  destruct (poll_exposed w vclusterName server N (ticks w 2 300) false s
    HN Hsrv Hnr Hr) as (pw & s1 & evs1 & Hp & Hcmd & Ht1 & _).
  assert (Hce : checkExposed w vclusterName s = (Ok tt, s1)).
  { rewrite checkExposed_polls by done. run. by rewrite Hp. }
  assert (Hsrv1 : Server (cmd s1) = server) by by rewrite Hcmd.
  assert (Hne : server <> "").
  { unfold readyAt in Hr. destruct (serviceAt _ _ _ _) as [svc|]; [|done].
    apply andb_prop in Hr as [_ Hr]. destruct (corev1.Ingress svc); [done|].
    apply andb_prop in Hr as [_ Hr]. apply negb_true_iff in Hr.
    by apply String.eqb_neq. }
  assert (Hrun : Connect_fetched w vclusterName podName kubeConfig s =
    writeKubeConfig w vclusterName
      (api.setClusters kubeConfig {[ k := api.setServer cl (withScheme server) ]})
      {| cmd := setServer (cmd s1) (withScheme server); trace := trace s1 |}).
  { unfold Connect_fetched. rewrite Hcl, map_size_singleton. simpl.
    unfold bind. rewrite Hce.
    rewrite (Connect_rewrite_direct w vclusterName podName kubeConfig k cl s1);
      [by rewrite Hsrv1 | by rewrite Hsrv1 | done]. }
  eexists. split; [|split; [exact Hrun|]].
  { simpl. rewrite Hcmd. by destruct (cmd s). }
  rewrite Hrun.
  destruct (writeKubeConfig_emits w (fun e => negb (isPortForward e))
    vclusterName
    (api.setClusters kubeConfig {[ k := api.setServer cl (withScheme server) ]})
    ltac:(done) ltac:(done) ltac:(done) ltac:(done)
    {| cmd := setServer (cmd s1) (withScheme server); trace := trace s1 |})
    as (evs2 & Ht2 & Hp2).
  exists (evs1 ++ evs2). rewrite Ht2. simpl. rewrite Ht1, <- app_assoc.
  split; [done|]. rewrite forallb_app, Hp2, andb_true_r.
  destruct (checkExposed_emits w (fun e => negb (isPortForward e)) vclusterName
    ltac:(done) ltac:(done) s) as (evs1' & Ht1' & Hp1).
  rewrite Hce in Ht1'. simpl in Ht1'. rewrite Ht1 in Ht1'.
  by apply app_inv_head in Ht1' as ->.
Qed.

(** ** Writing the kube config out *)

Lemma count_forallb p evs :
  forallb (fun e => negb (p e)) evs = true -> count p evs = 0%nat.
Proof.
  unfold count. induction evs as [|e evs IH]; simpl; [done|].
  intros [He Hevs]%andb_prop. destruct (p e); [done|]. by apply IH.
Qed.

Ltac give_events :=
  first [ exists []; rewrite app_nil_r; split; [reflexivity|]
        | eexists; rewrite <- ?app_assoc; split; [reflexivity|] ].

(** X13. [updateKubeConfig] hands to [ModifyConfig] the ambient kube
    config with the cluster, the user and a context that names both stored
    under the context name; every other entry is as it was, and the current
    context changes only if [setActive] is set.  When the ambient kube
    config cannot be loaded, nothing is modified. *)
Theorem updateKubeConfig_adds_context (w : World) (contextName : string)
    (cluster : api.Cluster) (authInfo : api.AuthInfo) (setActive : bool)
    (s : St) :
  match RawConfig w with
  | Err e =>
      updateKubeConfig w contextName (Some cluster) (Some authInfo) setActive s
        = (Err e, s)
  | Ok config =>
      exists config',
        updateKubeConfig w contextName (Some cluster) (Some authInfo) setActive s
          = (match ModifyConfig w config' with
             | Some e => Err e
             | None => Ok tt
             end,
             {| cmd := cmd s; trace := trace s ++ [EvModifyConfig config'] |}) /\
        api.Clusters config' !! contextName = Some cluster /\
        api.AuthInfos config' !! contextName = Some authInfo /\
        api.Contexts config' !! contextName =
          Some {| api.Cluster_ := contextName; api.AuthInfo_ := contextName |} /\
        api.CurrentContext config' =
          (if setActive then contextName else api.CurrentContext config) /\
        (forall k, k <> contextName ->
           api.Clusters config' !! k = api.Clusters config !! k /\
           api.AuthInfos config' !! k = api.AuthInfos config !! k /\
           api.Contexts config' !! k = api.Contexts config !! k)
  end.
Proof.
  unfold updateKubeConfig. run.
  destruct (RawConfig w) as [config|e]; simpl; [|done].
  match goal with |- context [ModifyConfig w ?c] => exists c end.
  split.
  { by destruct (ModifyConfig w _). }
  simpl. rewrite !lookup_insert_eq. repeat split; try done;
    by rewrite lookup_insert_ne.
Qed.

(** The one place the kube config goes to, by the flags. *)
Lemma writeKubeConfig_cases (w : World) (vclusterName : string)
    (kubeConfig : api.Config) (s : St) :
  exists evs,
    trace (writeKubeConfig w vclusterName kubeConfig s).2 = trace s ++ evs /\
    (count isSink evs <= 1)%nat /\
    count isPortForward evs = 0%nat /\
    ((writeKubeConfig w vclusterName kubeConfig s).1 = Ok tt ->
     count isSink evs = 1%nat) /\
    (failed (Write w kubeConfig) = true -> evs = []) /\
    (UpdateCurrent (cmd s) = true ->
     count isStdout evs = 0%nat /\ count isWriteFile evs = 0%nat) /\
    (UpdateCurrent (cmd s) = false -> Print (cmd s) = true ->
     forallb isStdout evs = true) /\
    (UpdateCurrent (cmd s) = false -> Print (cmd s) = false ->
     count isModifyConfig evs = 0%nat /\ count isStdout evs = 0%nat) /\
    count isDone evs =
      (match (writeKubeConfig w vclusterName kubeConfig s).1 with
       | Ok _ => if UpdateCurrent (cmd s) || negb (Print (cmd s)) then 1 else 0
       | Err _ => 0
       end)%nat.
Proof.
  unfold writeKubeConfig, updateKubeConfig. run.
  destruct (Write w kubeConfig) as [out|e]; simpl.
  2:{ exists []. rewrite app_nil_r. repeat split; try done; vm_compute; lia. }
  destruct (UpdateCurrent (cmd s)); simpl.
  - destruct (RawConfig w) as [config|e]; simpl.
    + destruct (ModifyConfig w _); simpl; give_events;
        repeat split; try done; vm_compute; lia.
    + exists []. rewrite app_nil_r. repeat split; try done; vm_compute; lia.
  - destruct (Print (cmd s)); simpl.
    + destruct (StdoutWrite w out); simpl; give_events;
        repeat split; try done; vm_compute; lia.
    + destruct (WriteFile w _ out); simpl; give_events;
        repeat split; try done; vm_compute; lia.
Qed.

(** X11. The kube config leaves through one door: [writeKubeConfig]
    modifies the ambient kube config, writes standard output or writes the
    file at most once altogether, and once when it returns nil.
    [--update-current] goes before [--print], which goes before the file;
    with [--print] nothing but standard output is touched, not even the
    log; and when the kube config cannot be serialized nothing happens. *)
Theorem writeKubeConfig_one_sink (w : World) (vclusterName : string)
    (kubeConfig : api.Config) (s : St) :
  exists evs,
    trace (writeKubeConfig w vclusterName kubeConfig s).2 = trace s ++ evs /\
    (count isSink evs <= 1)%nat /\
    ((writeKubeConfig w vclusterName kubeConfig s).1 = Ok tt ->
     count isSink evs = 1%nat) /\
    (failed (Write w kubeConfig) = true -> evs = []) /\
    (UpdateCurrent (cmd s) = true ->
     count isStdout evs = 0%nat /\ count isWriteFile evs = 0%nat) /\
    (UpdateCurrent (cmd s) = false -> Print (cmd s) = true ->
     forallb isStdout evs = true) /\
    (UpdateCurrent (cmd s) = false -> Print (cmd s) = false ->
     count isModifyConfig evs = 0%nat /\ count isStdout evs = 0%nat).
Proof.
  destruct (writeKubeConfig_cases w vclusterName kubeConfig s)
    as (evs & Ht & H1 & _ & H2 & H3 & H4 & H5 & H6 & _).
  by exists evs.
Qed.

(** X12. The message of success ("Successfully created kube context", or
    "Virtual cluster kube config written to") is printed exactly when
    [writeKubeConfig] returns nil and [--print] is not what decided; after an
    error it is never printed. *)
Theorem writeKubeConfig_done_iff_success (w : World) (vclusterName : string)
    (kubeConfig : api.Config) (s : St) :
  exists evs,
    trace (writeKubeConfig w vclusterName kubeConfig s).2 = trace s ++ evs /\
    count isDone evs =
      (match (writeKubeConfig w vclusterName kubeConfig s).1 with
       | Ok _ => if UpdateCurrent (cmd s) || negb (Print (cmd s)) then 1 else 0
       | Err _ => 0
       end)%nat.
Proof.
  destruct (writeKubeConfig_cases w vclusterName kubeConfig s)
    as (evs & Ht & _ & _ & _ & _ & _ & _ & _ & Hd).
  by exists evs.
Qed.

(** ** The order of things *)

Lemma quiet_events {A} (m : M A) :
  emits (fun e => negb (isSink e) && negb (isPortForward e)) m ->
  forall s, exists evs,
    trace (m s).2 = trace s ++ evs /\
    count isSink evs = 0%nat /\ count isPortForward evs = 0%nat.
Proof.
  intros Hm s. destruct (Hm s) as (evs & Ht & Hp).
  exists evs. split; [done|]. clear Ht. unfold count.
  induction evs as [|a evs IH]; simpl in *; [done|].
  apply andb_prop in Hp as [[Ha Hb]%andb_prop Hp].
  destruct (isSink a), (isPortForward a); try done. by apply IH.
Qed.

Ltac order_trivial := split; [lia|]; split; [lia|]; intros ?; lia.

Lemma Connect_rewrite_order (w : World) (vclusterName podName : string)
    (kubeConfig : api.Config) (s : St) :
  exists evs,
    trace (Connect_rewrite w vclusterName podName kubeConfig s).2 = trace s ++ evs /\
    (count isSink evs <= 1)%nat /\
    (count isPortForward evs <= 1)%nat /\
    (count isPortForward evs = 1%nat ->
     count isSink evs = 1%nat /\
     exists evs' e, evs = evs' ++ [e] /\ isPortForward e = true).
Proof.
  unfold Connect_rewrite, rewriteServer, bind.
  destruct (quiet_events _ (rewriteServers_emits _
    (map_to_list (api.Clusters kubeConfig)).*1 kubeConfig "") s)
    as (evs1 & Ht1 & Hs1 & Hf1).
  destruct (rewriteServers _ _ _ s) as [[r|e] s1]; simpl in *.
  2:{ exists evs1. rewrite Hs1, Hf1. split; [done|]. order_trivial. }
  destruct (writeKubeConfig_cases w vclusterName r.1 s1)
    as (evs2 & Ht2 & Hle2 & Hf2 & Hok2 & _).
  destruct (writeKubeConfig w vclusterName r.1 s1) as [[[]|e] s2]; simpl in *.
  2:{ exists (evs1 ++ evs2). rewrite Ht2, Ht1, <- app_assoc, !count_app.
      rewrite Hs1, Hf1, Hf2. split; [done|]. order_trivial. }
  specialize (Hok2 eq_refl).
  destruct (decide (Server (cmd s2) = "")) as [Hsrv|Hsrv].
  - rewrite forward_tunnel by done. simpl.
    eexists ((evs1 ++ evs2) ++ [_]).
    rewrite Ht2, Ht1, <- !app_assoc. split; [reflexivity|].
    rewrite !count_app, Hs1, Hf1, Hf2, Hok2.
    change (count isSink [_]) with 0%nat.
    change (count isPortForward [_]) with 1%nat.
    split; [lia|]. split; [lia|]. intros _. split; [lia|].
    eexists (evs1 ++ evs2), _. by rewrite <- app_assoc.
  - rewrite forward_direct by done. simpl.
    exists (evs1 ++ evs2). rewrite Ht2, Ht1, <- app_assoc, !count_app.
    rewrite Hs1, Hf1, Hf2. split; [done|]. order_trivial.
Qed.

(** X14. In a whole run of [Connect] the kube config is written out at
    most once and at most one port forwarding is started; a port forwarding
    is started only after the kube config was written out, and it is the
    last thing [Connect] does. *)
Theorem Connect_writes_once_then_forwards (w : World) (vclusterName : string)
    (s : St) :
  exists evs,
    trace (Connect w vclusterName s).2 = trace s ++ evs /\
    (count isSink evs <= 1)%nat /\
    (count isPortForward evs <= 1)%nat /\
    (count isPortForward evs = 1%nat ->
     count isSink evs = 1%nat /\
     exists evs' e, evs = evs' ++ [e] /\ isPortForward e = true).
Proof.
  unfold Connect, bind.
  destruct (quiet_events _ (Connect_fetch_emits w
    (fun e => negb (isSink e) && negb (isPortForward e)) vclusterName
    ltac:(done) ltac:(done) ltac:(done) ltac:(done)) s)
    as (evs1 & Ht1 & Hs1 & Hf1).
  destruct (Connect_fetch w vclusterName s) as [[[podName kubeConfig]|e] s1];
    simpl in *.
  2:{ exists evs1. rewrite Hs1, Hf1. split; [done|]. order_trivial. }
  unfold Connect_fetched. destruct (negb _); simpl.
  { exists evs1. rewrite Hs1, Hf1. split; [done|]. order_trivial. }
  unfold bind.
  destruct (quiet_events _ (checkExposed_emits w
    (fun e => negb (isSink e) && negb (isPortForward e)) vclusterName
    ltac:(done) ltac:(done)) s1) as (evs2 & Ht2 & Hs2 & Hf2).
  destruct (checkExposed w vclusterName s1) as [[[]|e] s2]; simpl in *.
  2:{ exists (evs1 ++ evs2). rewrite Ht2, Ht1, <- app_assoc, !count_app.
      rewrite Hs1, Hf1, Hs2, Hf2. split; [done|]. order_trivial. }
  destruct (Connect_rewrite_order w vclusterName podName kubeConfig s2)
    as (evs3 & Ht3 & Hle3 & Hlf3 & Hlast).
  exists ((evs1 ++ evs2) ++ evs3).
  rewrite Ht3, Ht2, Ht1, <- !app_assoc. split; [done|].
  rewrite !count_app, Hs1, Hf1, Hs2, Hf2. simpl.
  split; [lia|]. split; [lia|]. intros Hone.
  destruct (Hlast Hone) as [Hsink (evs' & e & -> & He)]. split; [lia|].
  exists (evs1 ++ evs2 ++ evs'), e. by rewrite <- !app_assoc.
Qed.

(** ** A pod that is given *)

Lemma Connect_setup_frame (w : World) (vclusterName : string) (s : St) :
  trace (Connect_setup w vclusterName s).2 = trace s /\
  PodName (cmd (Connect_setup w vclusterName s).2) = PodName (cmd s).
Proof.
  unfold Connect_setup. run.
  destruct (ClientConfig w); simpl; [|done].
  destruct (NewForConfig w); simpl; [|done].
  destruct (String.eqb (Namespace (cmd s)) ""); simpl.
  - destruct (LoaderNamespace w) as [ns [e|]]; simpl; [done|].
    by destruct (_ && _).
  - by destruct (_ && _).
Qed.

Lemma findPod_given (w : World) (vclusterName : string) (s : St) :
  PodName (cmd s) <> "" -> findPod w vclusterName s = (Ok (PodName (cmd s)), s).
Proof.
  intros Hpod. apply String.eqb_neq in Hpod. unfold findPod. run.
  by rewrite Hpod.
Qed.

Lemma GetKubeConfig_emits_pod (w : World) P vclusterName podName namespace :
  (forall a b, P (EvReadKubeConfig a b) = true) ->
  (forall a c d, P (EvExec a podName c d) = true) ->
  (forall lvl msg, P (EvLog lvl msg) = true) ->
  emits P (GetKubeConfig w vclusterName podName namespace).
Proof.
  intros H1 H2 H3. unfold GetKubeConfig.
  apply emits_bind; [|auto with emits].
  apply emits_wrapErr, emits_poll. intros l. unfold getKubeConfigCondition.
  apply emits_bind; [by apply emits_try, emits_call|intros r].
  destruct r; [auto with emits|].
  apply emits_bind; [by apply emits_try, emits_call|intros r'].
  destruct r' as [stdout|e'].
  - destruct (Load w stdout); [|auto with emits].
    apply emits_bind; [by apply emits_emit|intros ?]. auto with emits.
  - apply emits_bind; [by apply emits_when, emits_emit|intros ?].
    auto with emits.
Qed.

Lemma forward_emits_pod (w : World) P podName port :
  (forall a c d e, P (EvPortForward a podName c d e) = true) ->
  emits P (forward w podName port).
Proof.
  intros HP. unfold forward.
  apply emits_bind; [auto with emits|intros c].
  destruct (negb _); [auto with emits|].
  apply emits_bind; [by apply emits_emit|intros ?]. auto with emits.
Qed.

Lemma onlyPod_exec pod a c d : onlyPod pod (EvExec a pod c d) = true.
Proof. simpl. apply String.eqb_refl. Qed.

Lemma onlyPod_forward pod a c d e : onlyPod pod (EvPortForward a pod c d e) = true.
Proof. simpl. apply String.eqb_refl. Qed.

Lemma Connect_fetched_emits_pod (w : World) vclusterName podName kubeConfig :
  emits (onlyPod podName) (Connect_fetched w vclusterName podName kubeConfig).
Proof.
  unfold Connect_fetched. destruct (negb _); [auto with emits|].
  apply emits_bind; [by apply checkExposed_emits|intros ?].
  unfold Connect_rewrite.
  apply emits_bind; [apply rewriteServers_emits|intros r].
  apply emits_bind; [by apply writeKubeConfig_emits|intros ?].
  apply forward_emits_pod. intros. apply onlyPod_forward.
Qed.

(** X1. With a pod given ([--pod]), whatever the arguments of [Run],
    no pods are listed, and every command that is run and every port that
    is forwarded goes to that pod. *)
Theorem Run_with_pod (w : World) (args : list string) (s : St) :
  PodName (cmd s) <> "" ->
  exists evs,
    trace (Run w args s).2 = trace s ++ evs /\
    forallb (onlyPod (PodName (cmd s))) evs = true.
Proof.
  intros Hpod. unfold Run.
  set (vclusterName := if (0 <? length args)%nat then _ else _).
  unfold Connect, Connect_fetch, bind.
  destruct (Connect_setup_frame w vclusterName s) as [Ht0 Hp0].
  destruct (Connect_setup w vclusterName s) as [[[]|e] s0]; simpl in *.
  2:{ exists []. by rewrite app_nil_r. }
  rewrite findPod_given by by rewrite Hp0.
  rewrite Hp0. unfold getCmd.
  destruct (emits_wrapErr (onlyPod (PodName (cmd s))) _
    "failed to parse kube config"
    (GetKubeConfig_emits_pod w (onlyPod (PodName (cmd s))) vclusterName
       (PodName (cmd s)) (Namespace (cmd s0)) ltac:(done)
       (onlyPod_exec (PodName (cmd s))) ltac:(done)) s0)
    as (evs1 & Ht1 & Hp1).
  destruct (wrapErr _ _ s0) as [[[kubeConfig|]|e] s1]; simpl in *.
  - destruct (Connect_fetched_emits_pod w vclusterName (PodName (cmd s))
      kubeConfig s1) as (evs2 & Ht2 & Hp2).
    exists (evs1 ++ evs2). rewrite Ht2, Ht1, Ht0, <- app_assoc.
    split; [done|]. by rewrite forallb_app, Hp1, Hp2.
  - exists evs1. by rewrite Ht1, Ht0.
  - exists evs1. by rewrite Ht1, Ht0.
Qed.

(** ** No panic *)

Section Raises.

Variable Q : error -> bool.

Lemma raises_ret {A} (a : A) : raises Q (ret a).
Proof. by intros s e. Qed.

Lemma raises_fail {A} e : Q e = true -> raises Q (@fail A e).
Proof. intros He s e' [= <-]. done. Qed.

Lemma raises_getCmd : raises Q getCmd.
Proof. by intros s e. Qed.

Lemma raises_putCmd c : raises Q (putCmd c).
Proof. by intros s e. Qed.

Lemma raises_emit ev : raises Q (emit ev).
Proof. by intros s e. Qed.

Lemma raises_try {A} (m : M A) : raises Q (try m).
Proof. intros s e. unfold try. by destruct (m s). Qed.

Lemma raises_liftR {A} (r : result A) :
  match r with Err e => Q e | Ok _ => true end = true -> raises Q (liftR r).
Proof. destruct r; [intros _; apply raises_ret | apply raises_fail]. Qed.

Lemma raises_check r :
  match r with Some e => Q e | None => true end = true -> raises Q (check r).
Proof. destruct r; [apply raises_fail | intros _; apply raises_ret]. Qed.

Lemma raises_call {A} ev (answer : list Event -> result A) :
  (forall tr, match answer tr with Err e => Q e | Ok _ => true end = true) ->
  raises Q (call ev answer).
Proof.
  intros Ha s e. unfold call. simpl. intros He. specialize (Ha (trace s)).
  by rewrite He in Ha.
Qed.

Lemma raises_when b m : raises Q m -> raises Q (when b m).
Proof. destruct b; [done|]. intros _. apply raises_ret. Qed.

Lemma raises_bind_post {A B} (m : M A) (k : A -> M B) :
  raises Q m ->
  (forall s a s', m s = (Ok a, s') -> forall e, (k a s').1 = Err e -> Q e = true) ->
  raises Q (bind m k).
Proof.
  intros Hm Hk s e. unfold bind. specialize (Hm s). specialize (Hk s).
  destruct (m s) as [[a|e'] s1]; simpl in *.
  - by apply Hk.
  - intros [= <-]. by apply Hm.
Qed.

Lemma raises_bind {A B} (m : M A) (k : A -> M B) :
  raises Q m -> (forall a, raises Q (k a)) -> raises Q (bind m k).
Proof.
  intros Hm Hk. apply raises_bind_post; [done|].
  intros s a s' _ e. apply Hk.
Qed.

Lemma raises_wrapErr {A} (m : M A) msg :
  (forall e, Q e = true -> Q (Wrap e msg) = true) ->
  raises Q m -> raises Q (wrapErr m msg).
Proof.
  intros HQ Hm s e. unfold wrapErr. specialize (Hm s).
  destruct (m s) as [[a|e'] s1]; simpl in *; [done|].
  intros [= <-]. by apply HQ, Hm.
Qed.

Lemma raises_poll {L} n (condition : L -> M (bool * L)) l :
  Q ErrWaitTimeout = true ->
  (forall l', raises Q (condition l')) -> raises Q (poll n condition l).
Proof.
  intros HQ Hc. revert l. induction n as [|n IH]; intros l; simpl.
  - apply raises_bind; [done|]. intros [[] l']; simpl;
      [apply raises_ret | by apply raises_fail].
  - apply raises_bind; [done|]. intros [[] l']; simpl;
      [apply raises_ret | apply IH].
Qed.

End Raises.

Lemma raises_at {A} Q (m : M A) s e : raises Q m -> (m s).1 = Err e -> Q e = true.
Proof. intros Hm. apply Hm. Qed.

Lemma try_call_post {A} ev (answer : list Event -> result A) s r s' :
  try (call ev answer) s = (Ok r, s') -> r = answer (trace s).
Proof. unfold try, call. by intros [= <- _]. Qed.

Section NoPanic.

Variable w : World.
Hypothesis Hcalm : calm w.

Lemma findPod_no_panic name : raises noPanic (findPod w name).
Proof.
  unfold findPod. apply raises_bind; [apply raises_getCmd|intros c].
  destruct (String.eqb _ _); [|apply raises_ret].
  apply raises_wrapErr; [done|]. apply raises_poll; [done|]. intros pod.
  unfold findPodCondition.
  apply raises_bind; [apply raises_getCmd|intros c'].
  apply raises_bind.
  { apply raises_call. intros tr. apply (calm_ListPods w Hcalm). }
  intros pods. destruct pods as [|p pods]; [apply raises_ret|].
  change (length (p :: pods) =? 0)%nat with false. cbv iota.
  destruct (Slice_top (p :: pods) ltac:(done)) as (top & rest & -> & _).
  simpl. destruct (corev1.DeletionTimestamp top); apply raises_ret.
Qed.

Lemma GetKubeConfig_no_panic name pod ns : raises noPanic (GetKubeConfig w name pod ns).
Proof.
  unfold GetKubeConfig. apply raises_bind; [|intros l; apply raises_ret].
  apply raises_wrapErr; [done|]. apply raises_poll; [done|]. intros l.
  unfold getKubeConfigCondition.
  apply raises_bind; [apply raises_try|intros r].
  destruct r; [apply raises_ret|].
  apply raises_bind; [apply raises_try|intros r'].
  destruct r' as [stdout|e'].
  - destruct (Load w stdout).
    + apply raises_bind; [apply raises_emit|intros ?]. apply raises_ret.
    + by apply raises_fail.
  - apply raises_bind; [apply raises_when, raises_emit|intros ?].
    apply raises_ret.
Qed.

Lemma GetKubeConfig_Some name pod ns s s' p :
  GetKubeConfig w name pod ns s = (Ok p, s') -> p <> None.
Proof.
  unfold GetKubeConfig, bind, wrapErr.
  destruct (poll _ _ _ s) as [[l|e] s1] eqn:Hp; [|done].
  unfold ret. intros [= <- <-].
  apply (poll_Ok_inv (fun _ => True)) in Hp as (l0 & s0 & _ & Hc); [|done..].
  unfold getKubeConfigCondition in Hc. run.
  destruct (ReadKubeConfig w _ _ _); simpl in Hc; [by injection Hc as <- _|].
  destruct (ExecBuffered w _ _ _ _ _) as [stdout|]; simpl in Hc.
  - destruct (Load w stdout); simpl in Hc; [by injection Hc as <- _|done].
  - by destruct l0.2.
Qed.

Lemma checkExposed_no_panic name : raises noPanic (checkExposed w name).
Proof.
  unfold checkExposed. apply raises_bind; [apply raises_getCmd|intros c].
  destruct (_ && _); [|apply raises_ret].
  apply raises_bind; [|intros ?; apply raises_ret].
  apply raises_wrapErr; [done|]. apply raises_poll; [done|]. intros pw.
  unfold exposedCondition.
  apply raises_bind; [apply raises_getCmd|intros c'].
  apply raises_bind_post; [apply raises_try|].
  intros s r s' Hr e. apply try_call_post in Hr. subst r.
  pose proof (calm_GetService w Hcalm (count isGetService (trace s))
    (Namespace c') name) as Hq.
  destruct (GetService w _ _ _) as [service|e0]; simpl in *.
  - apply (raises_at noPanic).
    destruct (negb _); [apply raises_ret|].
    destruct (corev1.Ingress service) as [|ingress ?].
    + apply raises_bind; [apply raises_when, raises_emit|intros ?].
      apply raises_ret.
    + apply raises_bind.
      { destruct (negb _); [apply raises_putCmd|apply raises_when, raises_putCmd]. }
      intros ?. apply raises_bind; [apply raises_getCmd|intros c''].
      destruct (String.eqb _ _); [apply raises_ret|].
      apply raises_bind; [apply raises_emit|intros ?]. apply raises_ret.
  - destruct (IsNotFound e0); [done|]. by intros [= <-].
Qed.

End NoPanic.

Lemma rewriteServers_no_panic (keys : list string) :
  forall (kubeConfig : api.Config) (port : string),
  (forall k, k ∈ keys -> is_Some (api.Clusters kubeConfig !! k)) ->
  raises noPanic (rewriteServers keys kubeConfig port).
Proof.
  induction keys as [|k keys IH]; intros kubeConfig port Hkeys; simpl.
  { apply raises_ret. }
  apply raises_bind; [apply raises_getCmd|intros c].
  destruct (negb _).
  - apply raises_bind; [apply raises_when, raises_putCmd|intros ?].
    apply raises_bind; [apply raises_getCmd|intros c'].
    apply IH. intros k' Hk'. simpl. apply lookup_alter_is_Some, Hkeys.
    by right.
  - destruct (Hkeys k ltac:(by left)) as [cl ->].
    destruct (negb _); [by apply raises_fail|].
    apply IH. intros k' Hk'. simpl. apply lookup_insert_is_Some'.
    right. apply Hkeys. by right.
Qed.

Lemma rewriteServer_no_panic (kubeConfig : api.Config) :
  raises noPanic (rewriteServer kubeConfig).
Proof.
  apply rewriteServers_no_panic. intros k Hk.
  apply list_elem_of_fmap in Hk as ([k' cl] & -> & Hin).
  apply elem_of_map_to_list in Hin. by exists cl.
Qed.

Section NoPanicTail.

Variable w : World.
Hypothesis Hcalm : calm w.

Lemma writeKubeConfig_no_panic name kubeConfig :
  raises noPanic (writeKubeConfig w name kubeConfig).
Proof.
  unfold writeKubeConfig.
  apply raises_bind; [apply raises_liftR, (calm_Write w Hcalm)|intros out].
  apply raises_bind; [apply raises_getCmd|intros c].
  destruct (UpdateCurrent c); [|destruct (Print c)].
  - apply raises_bind; [|intros ?; apply raises_emit].
    unfold updateKubeConfig.
    apply raises_bind; [apply raises_liftR, (calm_RawConfig w Hcalm)|intros config].
    apply raises_bind; [apply raises_emit|intros ?].
    apply raises_check, (calm_ModifyConfig w Hcalm).
  - apply raises_bind; [apply raises_emit|intros ?].
    apply raises_check, (calm_StdoutWrite w Hcalm).
  - apply raises_bind; [apply raises_emit|intros ?].
    apply raises_bind; [|intros ?; apply raises_emit].
    apply raises_wrapErr; [done|].
    apply raises_check, (calm_WriteFile w Hcalm).
Qed.

Lemma forward_no_panic podName port : raises noPanic (forward w podName port).
Proof.
  unfold forward. apply raises_bind; [apply raises_getCmd|intros c].
  destruct (negb _); [apply raises_ret|].
  apply raises_bind; [apply raises_emit|intros ?].
  apply raises_check, (calm_StartPortForwarding w Hcalm).
Qed.

Lemma Connect_setup_no_panic name : raises noPanic (Connect_setup w name).
Proof.
  unfold Connect_setup.
  apply raises_bind.
  { apply raises_wrapErr; [done|]. apply raises_liftR, (calm_ClientConfig w Hcalm). }
  intros ?. apply raises_bind.
  { apply raises_wrapErr; [done|]. apply raises_liftR, (calm_NewForConfig w Hcalm). }
  intros ?. apply raises_bind; [apply raises_getCmd|intros c].
  apply raises_bind.
  { apply raises_when. apply raises_bind; [apply raises_putCmd|intros ?].
    apply raises_check, (calm_LoaderNamespace w Hcalm). }
  intros ?. apply raises_bind; [apply raises_getCmd|intros c'].
  destruct (_ && _); [by apply raises_fail|apply raises_ret].
Qed.

End NoPanicTail.

(** X15. [Connect] does not panic: when the collaborators return errors
    and no panics of their own, no error [Connect] returns is, or wraps, an
    index out of range (the first pod of the sorted list) or a nil
    dereference (the fetched kube config, a cluster of its map). *)
Theorem Connect_no_panic (w : World) (vclusterName : string) (s : St) (e : error) :
  calm w ->
  (Connect w vclusterName s).1 = Err e ->
  noPanic e = true.
Proof.
  intros Hcalm. apply (raises_at noPanic).
  unfold Connect. apply raises_bind.
  - unfold Connect_fetch.
    apply raises_bind; [by apply Connect_setup_no_panic|intros ?].
    apply raises_bind; [by apply findPod_no_panic|intros podName].
    apply raises_bind; [apply raises_getCmd|intros c].
    apply raises_bind_post.
    { apply raises_wrapErr; [done|]. apply GetKubeConfig_no_panic. }
    intros s0 p s' Hp e0. unfold wrapErr in Hp.
    destruct (GetKubeConfig w vclusterName podName (Namespace c) s0)
      as [[p0|e1] s1] eqn:Hg; [|done].
    injection Hp as <- <-. apply GetKubeConfig_Some in Hg.
    by destruct p0.
  - intros [podName kubeConfig]. unfold Connect_fetched. simpl.
    destruct (negb _); [by apply raises_fail|].
    apply raises_bind; [by apply checkExposed_no_panic|intros ?].
    unfold Connect_rewrite.
    apply raises_bind; [apply rewriteServer_no_panic|intros r].
    apply raises_bind; [by apply writeKubeConfig_no_panic|intros ?].
    by apply forward_no_panic.
Qed.

(** ** More example runs *)

Lemma Run_with_pod_witness :
  exists evs,
    trace (Run Demo.plain ["demo"]
             (Demo.start (Demo.withPod Demo.flags "demo-0"))).2 = evs /\
    forallb (onlyPod "demo-0") evs = true.
Proof.
  refine (Run_with_pod Demo.plain ["demo"]
    (Demo.start (Demo.withPod Demo.flags "demo-0")) _).
  discriminate.
Defined.

Lemma findPod_list_error_fatal_witness :
  findPod Demo.forbidden "demo" (Demo.start Demo.flags) =
    (Err (Wrap (Other "pods is forbidden") "finding vcluster pod"),
     {| cmd := Demo.flags;
        trace := [EvListPods "default" "app=vcluster,release=demo"] |}).
Proof.
  exact (findPod_list_error_fatal Demo.forbidden "demo" (Demo.start Demo.flags)
    (Other "pods is forbidden") eq_refl eq_refl).
Defined.

Lemma findPod_returns_live_newest_witness :
  exists i pods p,
    ListPods Demo.plain i "default" "app=vcluster,release=demo" = Ok pods /\
    p ∈ pods /\ corev1.Name p = "demo-0" /\
    corev1.DeletionTimestamp p = None /\
    Forall (fun q => (corev1.CreationTimestamp q <= corev1.CreationTimestamp p)%Z) pods.
Proof.
  refine (findPod_returns_live_newest Demo.plain "demo" "demo-0"
    (Demo.start Demo.flags)
    (findPod Demo.plain "demo" (Demo.start Demo.flags)).2 eq_refl _).
  vm_compute. reflexivity.
Defined.

Lemma GetKubeConfig_secret_after_waiting_witness :
  exists s' evs,
    GetKubeConfig Demo.slowSecret "demo" "demo-0" "default" (Demo.start Demo.flags)
      = (Ok (Some Demo.config), s') /\
    trace s' = evs /\
    count isReadKubeConfig evs = 3%nat /\
    count isExec evs = 2%nat /\
    count (isLog msgFallback) evs = 0%nat.
Proof.
  refine (GetKubeConfig_secret_after_waiting Demo.slowSecret "demo" "demo-0"
    "default" 2 Demo.config (Demo.start Demo.flags) _ _ _ eq_refl).
  - vm_compute. lia.
  - intros [|[|i]] Hi; [reflexivity | reflexivity | lia].
  - intros i _. reflexivity.
Defined.

Lemma GetKubeConfig_Ok_not_nil_witness :
  exists kubeConfig,
    Some Demo.config = Some kubeConfig /\
    ((exists i, ReadKubeConfig Demo.legacy i "demo" "default" = Ok kubeConfig) \/
     (exists i stdout,
        ExecBuffered Demo.legacy i "default" "demo-0" "syncer" catKubeConfig
          = Ok stdout /\
        Load Demo.legacy stdout = Ok kubeConfig)).
Proof.
  refine (GetKubeConfig_Ok_not_nil Demo.legacy "demo" "demo-0" "default"
    (Demo.start Demo.flags)
    (GetKubeConfig Demo.legacy "demo" "demo-0" "default" (Demo.start Demo.flags)).2
    (Some Demo.config) _).
  vm_compute. reflexivity.
Defined.

Lemma checkExposed_api_error_fatal_witness :
  checkExposed Demo.unreadable "demo" (Demo.start Demo.flags) =
    (Err (Wrap (Other "services is forbidden") "wait for vcluster"),
     {| cmd := Demo.flags; trace := [EvGetService "default" "demo"] |}).
Proof.
  refine (checkExposed_api_error_fatal Demo.unreadable "demo"
    (Demo.start Demo.flags) (Other "services is forbidden") _ eq_refl eq_refl eq_refl).
  discriminate.
Defined.

Lemma checkExposed_discovers_endpoint_witness :
  exists s' evs,
    checkExposed Demo.balanced "demo" (Demo.start Demo.flags) = (Ok tt, s') /\
    cmd s' = setServer Demo.flags "34.1.1.1" /\
    trace s' = evs /\
    count isGetService evs = 4%nat.
Proof.
  refine (checkExposed_discovers_endpoint Demo.balanced "demo" "34.1.1.1" 3
    (Demo.start Demo.flags) _ eq_refl _ _ eq_refl).
  - discriminate.
  - vm_compute. lia.
  - intros [|[|[|i]]] Hi; [reflexivity | reflexivity | reflexivity | lia].
Defined.

Lemma Connect_explicit_server_witness :
  Server (cmd (Connect Demo.plain "demo"
                 (Demo.start (setServer Demo.flags "34.1.1.1"))).2)
  = "https://34.1.1.1".
Proof.
  refine (proj2 (Connect_explicit_server Demo.plain "demo"
    (Demo.start (setServer Demo.flags "34.1.1.1")) _) _).
  - discriminate.
  - vm_compute. reflexivity.
Defined.

Lemma rewriteServer_needs_two_colons_witness :
  Connect_rewrite Demo.plain "demo" "demo-0" Demo.noPortConfig
    (Demo.start Demo.flags) =
    (Err (Errorf "unexpected server in kubeconfig: https://example.com"),
     Demo.start Demo.flags).
Proof.
  refine (proj2 (proj2 (rewriteServer_needs_two_colons Demo.plain "demo" "demo-0"
    Demo.noPortConfig "demo" Demo.noPort (Demo.start Demo.flags)
    eq_refl eq_refl) _)).
  vm_compute. lia.
Defined.

Lemma Connect_fetched_discovered_endpoint_witness :
  exists s',
    cmd s' = setServer Demo.flags "https://34.1.1.1" /\
    Connect_fetched Demo.balanced "demo" "demo-0" Demo.config
      (Demo.start Demo.flags) =
      writeKubeConfig Demo.balanced "demo"
        (api.setClusters Demo.config
           {[ "demo" := api.setServer Demo.cluster "https://34.1.1.1" ]}) s' /\
    exists evs,
      trace (Connect_fetched Demo.balanced "demo" "demo-0" Demo.config
               (Demo.start Demo.flags)).2 = evs /\
      forallb (fun e => negb (isPortForward e)) evs = true.
Proof.
  refine (Connect_fetched_discovered_endpoint Demo.balanced "demo" "demo-0"
    "34.1.1.1" Demo.config "demo" Demo.cluster 3 (Demo.start Demo.flags)
    _ eq_refl eq_refl _ _ eq_refl).
  - discriminate.
  - vm_compute. lia.
  - intros [|[|[|i]]] Hi; [reflexivity | reflexivity | reflexivity | lia].
Defined.

Lemma Connect_no_panic_witness :
  noPanic (stageError Fetching) = true.
Proof.
  refine (Connect_no_panic Demo.stuck "demo" (Demo.start Demo.flags)
    (stageError Fetching) _ _).
  - constructor; intros; reflexivity.
  - vm_compute. reflexivity.
Defined.

(** ** A whole run through the tunnel *)

Lemma Connect_setup_ok (w : World) (vclusterName : string) (s : St) :
  ClientConfig w = Ok tt -> NewForConfig w = Ok tt ->
  Namespace (cmd s) <> "" ->
  PodName (cmd s) <> "" ->
  Connect_setup w vclusterName s = (Ok tt, s).
Proof.
  intros Hcc Hnf Hns Hpod. unfold Connect_setup. run.
  rewrite Hcc, Hnf. simpl.
  apply String.eqb_neq in Hns, Hpod. rewrite Hns. simpl.
  by rewrite Hpod, andb_false_r.
Qed.

Lemma GetKubeConfig_first_read (w : World) (vclusterName podName namespace : string)
    (kubeConfig : api.Config) (s : St) :
  readAt w vclusterName namespace s 0 = Ok kubeConfig ->
  GetKubeConfig w vclusterName podName namespace s =
    (Ok (Some kubeConfig),
     {| cmd := cmd s;
        trace := trace s ++ [EvReadKubeConfig vclusterName namespace] |}).
Proof.
  intros Hread. unfold GetKubeConfig, bind, wrapErr.
  by erewrite poll_done_first by by apply getKubeConfigCondition_secret.
Qed.

Lemma checkExposed_none (w : World) (vclusterName : string) (s : St) :
  vclusterName <> "" ->
  Server (cmd s) = "" ->
  noEndpointExpected (serviceAt w vclusterName s 0) = true ->
  checkExposed w vclusterName s =
    (Ok tt, {| cmd := cmd s;
               trace := trace s ++ [EvGetService (Namespace (cmd s)) vclusterName] |}).
Proof.
  unfold serviceAt. rewrite Nat.add_0_r. intros Hname Hsrv Hans.
  rewrite checkExposed_polls by done. run.
  erewrite poll_done_first; [reflexivity|].
  unfold exposedCondition. run.
  destruct (GetService w _ _ _) as [service|e]; simpl in *; by rewrite Hans.
Qed.

Lemma rewriteServer_tunnel (kubeConfig : api.Config) (k : string)
    (cl : api.Cluster) (scheme host port : string) (s : St) :
  Server (cmd s) = "" ->
  api.Clusters kubeConfig = {[ k := cl ]} ->
  api.Server cl = scheme +:+ "://" +:+ host +:+ ":" +:+ port ->
  lacks ":" scheme = true -> lacks ":" host = true -> lacks ":" port = true ->
  rewriteServer kubeConfig s =
    (Ok (api.setClusters kubeConfig
           {[ k := api.setServer cl
                (scheme +:+ "://" +:+ host +:+ ":" +:+
                 strconv.Itoa (LocalPort (cmd s))) ]}, port), s).
Proof.
  intros Hsrv Hcl Hserver Hs Hh Hp.
  unfold rewriteServer. rewrite Hcl, map_to_list_singleton. simpl. run.
  rewrite Hsrv. simpl. rewrite Hcl, lookup_singleton_eq, Hserver.
  rewrite (Split_server scheme host port Hs Hh Hp). simpl.
  by rewrite insert_singleton_eq.
Qed.

Lemma writeKubeConfig_file (w : World) (vclusterName out : string)
    (kubeConfig : api.Config) (s : St) :
  UpdateCurrent (cmd s) = false -> Print (cmd s) = false ->
  Write w kubeConfig = Ok out ->
  WriteFile w (KubeConfig (cmd s)) out = None ->
  writeKubeConfig w vclusterName kubeConfig s =
    (Ok tt, {| cmd := cmd s;
               trace := trace s ++
                 [EvWriteFile (KubeConfig (cmd s)) out;
                  EvLog LDone (msgWritten (KubeConfig (cmd s)))] |}).
Proof.
  intros Hu Hp Hw Hf. unfold writeKubeConfig. run.
  rewrite Hw. simpl. rewrite Hu, Hp, Hf. simpl. by rewrite <- app_assoc.
Qed.

(** X18. The whole of [Connect] through the tunnel: the pod is given,
    the secret holds a kube config of one cluster with the server
    [scheme://host:port], no load balancer is to be expected and the file
    can be written.  Then [Connect] reads the secret once and the service
    once, writes to the file the kube config whose server is
    [scheme://host:<local port>], prints the message of success, forwards
    the local port to [port] of the pod, and returns what the port
    forwarding returns. *)
Theorem Connect_tunnel_end_to_end (w : World) (vclusterName : string)
    (kubeConfig : api.Config) (k : string) (cl : api.Cluster)
    (scheme host port out : string) (s : St) :
  ClientConfig w = Ok tt -> NewForConfig w = Ok tt ->
  Namespace (cmd s) <> "" -> PodName (cmd s) <> "" ->
  vclusterName <> "" -> Server (cmd s) = "" ->
  UpdateCurrent (cmd s) = false -> Print (cmd s) = false ->
  readAt w vclusterName (Namespace (cmd s)) s 0 = Ok kubeConfig ->
  api.Clusters kubeConfig = {[ k := cl ]} ->
  api.Server cl = scheme +:+ "://" +:+ host +:+ ":" +:+ port ->
  lacks ":" scheme = true -> lacks ":" host = true -> lacks ":" port = true ->
  noEndpointExpected (serviceAt w vclusterName s 0) = true ->
  let localPort := strconv.Itoa (LocalPort (cmd s)) in
  let kubeConfig' :=
    api.setClusters kubeConfig
      {[ k := api.setServer cl (scheme +:+ "://" +:+ host +:+ ":" +:+ localPort) ]} in
  Write w kubeConfig' = Ok out ->
  WriteFile w (KubeConfig (cmd s)) out = None ->
  Connect w vclusterName s =
    (match StartPortForwardingWithRestart w (Address (cmd s)) (PodName (cmd s))
             (Namespace (cmd s)) localPort port with
     | Some e => Err e
     | None => Ok tt
     end,
     {| cmd := cmd s;
        trace := trace s ++
          [EvReadKubeConfig vclusterName (Namespace (cmd s));
           EvGetService (Namespace (cmd s)) vclusterName;
           EvWriteFile (KubeConfig (cmd s)) out;
           EvLog LDone (msgWritten (KubeConfig (cmd s)));
           EvPortForward (Address (cmd s)) (PodName (cmd s)) (Namespace (cmd s))
             localPort port] |}).
Proof.
  intros Hcc Hnf Hns Hpod Hname Hsrv Hu Hp Hread Hcl Hserver Hs Hh Hpt Hsvc
    localPort kubeConfig' Hw Hf.
  unfold Connect, Connect_fetch, bind.
  rewrite Connect_setup_ok, findPod_given by done.
  unfold getCmd, wrapErr.
  rewrite (GetKubeConfig_first_read w vclusterName (PodName (cmd s))
    (Namespace (cmd s)) kubeConfig s Hread). simpl.
  unfold Connect_fetched. rewrite Hcl, map_size_singleton. simpl. unfold bind.
  set (s1 := {| cmd := cmd s;
                trace := trace s ++ [EvReadKubeConfig vclusterName (Namespace (cmd s))] |}).
  assert (Hsvc1 : noEndpointExpected (serviceAt w vclusterName s1 0) = true).
  { unfold serviceAt in *. subst s1. simpl. rewrite count_app.
    change (count isGetService [_]) with 0%nat. by rewrite Nat.add_0_r. }
  rewrite (checkExposed_none w vclusterName s1 Hname Hsrv Hsvc1).
  unfold Connect_rewrite, bind.
  match goal with
  | |- context [rewriteServer kubeConfig ?st] =>
      rewrite (rewriteServer_tunnel kubeConfig k cl scheme host port st Hsrv Hcl
        Hserver Hs Hh Hpt); cbv beta iota; cbn [fst snd]
  end.
  match goal with
  | |- context [writeKubeConfig w vclusterName ?kc ?st] =>
      change kc with kubeConfig';
      rewrite (writeKubeConfig_file w vclusterName out kubeConfig' st Hu Hp Hw Hf)
  end.
  rewrite forward_tunnel by done. simpl.
  by rewrite <- !app_assoc.
Qed.

Lemma Connect_tunnel_end_to_end_witness :
  Connect Demo.plain "demo" (Demo.start (Demo.withPod Demo.flags "demo-0")) =
    (Ok tt,
     {| cmd := Demo.withPod Demo.flags "demo-0";
        trace :=
          [EvReadKubeConfig "demo" "default";
           EvGetService "default" "demo";
           EvWriteFile "./kubeconfig.yaml" "kubeconfig";
           EvLog LDone (msgWritten "./kubeconfig.yaml");
           EvPortForward "" "demo-0" "default" "8443" "6443"] |}).
Proof.
  refine (Connect_tunnel_end_to_end Demo.plain "demo" Demo.config "demo"
    Demo.cluster "https" "10.0.0.5" "6443" "kubeconfig"
    (Demo.start (Demo.withPod Demo.flags "demo-0"))
    eq_refl eq_refl _ _ _ eq_refl eq_refl eq_refl eq_refl eq_refl eq_refl
    eq_refl eq_refl eq_refl eq_refl eq_refl eq_refl); discriminate.
Defined.

(** X17. With [--update-current], a kube config of one cluster and one
    user goes into the ambient kube config under the context name
    [vcluster_<namespace>_<name>], with the pod name for the name when no
    vcluster name was given; the context of that name points to both, and
    the current context is left as it is. *)
Theorem writeKubeConfig_update_current (w : World) (vclusterName out : string)
    (kubeConfig config : api.Config) (k u : string) (cl : api.Cluster)
    (au : api.AuthInfo) (s : St) :
  UpdateCurrent (cmd s) = true ->
  Write w kubeConfig = Ok out ->
  RawConfig w = Ok config ->
  api.Clusters kubeConfig = {[ k := cl ]} ->
  api.AuthInfos kubeConfig = {[ u := au ]} ->
  let contextName :=
    "vcluster_" +:+ Namespace (cmd s) +:+ "_" +:+
    (if String.eqb vclusterName "" then PodName (cmd s) else vclusterName) in
  exists config' evs,
    trace (writeKubeConfig w vclusterName kubeConfig s).2
      = trace s ++ EvModifyConfig config' :: evs /\
    count isSink evs = 0%nat /\
    api.Clusters config' !! contextName = Some cl /\
    api.AuthInfos config' !! contextName = Some au /\
    api.Contexts config' !! contextName =
      Some {| api.Cluster_ := contextName; api.AuthInfo_ := contextName |} /\
    api.CurrentContext config' = api.CurrentContext config.
Proof.
  intros Hu Hw Hraw Hcl Hau contextName.
  unfold writeKubeConfig, updateKubeConfig. run.
  rewrite Hw. simpl. rewrite Hu, Hraw. simpl.
  rewrite Hcl, Hau, !map_to_list_singleton. simpl.
  assert (Hctx : (if negb (String.eqb vclusterName "")
                  then "vcluster_" +:+ Namespace (cmd s) +:+ "_" +:+ vclusterName
                  else "vcluster_" +:+ Namespace (cmd s) +:+ "_" +:+ PodName (cmd s))
                 = contextName).
  { subst contextName. by destruct (String.eqb vclusterName ""). }
  rewrite Hctx.
  match goal with |- context [ModifyConfig w ?c] => exists c end.
  destruct (ModifyConfig w _); simpl.
  - exists []. simpl. rewrite !lookup_insert_eq. by repeat split.
  - eexists [_]. rewrite <- app_assoc. simpl. rewrite !lookup_insert_eq.
    by repeat split.
Qed.

Lemma writeKubeConfig_update_current_witness :
  exists config' evs,
    trace (writeKubeConfig Demo.ambient "demo" Demo.userConfig
             (Demo.start Demo.updating)).2 = EvModifyConfig config' :: evs /\
    count isSink evs = 0%nat /\
    api.Clusters config' !! "vcluster_default_demo" = Some Demo.cluster /\
    api.AuthInfos config' !! "vcluster_default_demo" = Some Demo.admin /\
    api.Contexts config' !! "vcluster_default_demo" =
      Some {| api.Cluster_ := "vcluster_default_demo";
              api.AuthInfo_ := "vcluster_default_demo" |} /\
    api.CurrentContext config' = "prod".
Proof.
  exact (writeKubeConfig_update_current Demo.ambient "demo" "kubeconfig"
    Demo.userConfig Demo.ambientConfig "demo" "admin" Demo.cluster Demo.admin
    (Demo.start Demo.updating) eq_refl eq_refl eq_refl eq_refl eq_refl).
Defined.
